(** * SGTM: approval inference and automerge policy ([src/github/logic.py])

    A shallow embedding of the decision logic of the pull-request bot and the
    properties of it that the specification states.

    - Python [str] values are modelled as [string] holding the UTF-8 encoding
      of the text; [datetime] values as a number of microseconds ([Z]).
    - Functions that may raise return an [outcome]; functions that call the
      GitHub client run in the monad [M], which threads the list of client
      calls issued so far and keeps it when an exception is raised.
    - Calls to the client are taken to return: a failure of the client
      propagates out of every function here and is not modelled.
    - Logging is not modelled: it does not influence any result. *)

From Stdlib Require Import ZArith String Ascii List Lia Bool Sorting.Sorted.
From stdpp Require Import base tactics option list strings gmap.

Local Open Scope string_scope.
Local Open Scope list_scope.
Local Open Scope Z_scope.

(** ** Python values *)

(** [datetime]: microseconds on the UTC time line. *)
Definition datetime := Z.

(** [timedelta(hours=h)], in the unit of [datetime]. *)
Definition timedelta_hours (h : Z) : Z := h * 3600000000.

Inductive exn :=
| AssertionError (msg : string)
| IndexError
| OverflowError.

Inductive outcome (A : Type) :=
| Return (a : A)
| Raise (e : exn).
Arguments Return {A} a.
Arguments Raise {A} e.

#[global] Instance outcome_ret : MRet outcome := fun _ a => Return a.
#[global] Instance outcome_bind : MBind outcome := fun _ _ f m =>
  match m with
  | Return a => f a
  | Raise e => Raise e
  end.

(** [assert cond, msg] *)
Definition py_assert (cond : bool) (msg : string) : outcome unit :=
  if cond then Return tt else Raise (AssertionError msg).

(** [l[i]] on a Python list: a negative index counts from the end, an index
    out of range raises [IndexError]. *)
Definition getitem {A} (l : list A) (i : Z) : outcome A :=
  let n := Z.of_nat (length l) in
  let j := if bool_decide (i < 0) then n + i else i in
  if bool_decide (0 <= j < n) then
    match l !! Z.to_nat j with
    | Some x => Return x
    | None => Raise IndexError
    end
  else Raise IndexError.

(** The range of [datetime], from 0001-01-01T00:00:00 to
    9999-12-31T23:59:59.999999, in microseconds around 1970-01-01; and the
    range of [timedelta], at most 999999999 days either way. *)
Definition datetime_min : datetime := -62135596800000000.
Definition datetime_max : datetime := 253402300799999999.

Definition datetime_representable (d : Z) : Prop :=
  datetime_min <= d <= datetime_max.

Definition timedelta_representable (delta : Z) : Prop :=
  -999999999 <= delta `div` 86400000000 <= 999999999.

(** [timedelta(hours=h)] and [d - delta] for a [datetime] [d]: both raise
    [OverflowError] when the result is out of range. *)
Definition timedelta (hours : Z) : outcome Z :=
  if bool_decide (timedelta_representable (timedelta_hours hours))
  then Return (timedelta_hours hours)
  else Raise OverflowError.

Definition datetime_sub (d : datetime) (delta : Z) : outcome datetime :=
  if bool_decide (datetime_representable (d - delta))
  then Return (d - delta)
  else Raise OverflowError.

(** [sorted(l, key=key)]: the stable sort by ascending key.  An element is
    inserted in front of the first element whose key is not smaller, so
    elements with equal keys keep the order they have in [l]. *)
Section Sorted.
Context {A : Type} (key : A -> Z).

Fixpoint insert_by_key (x : A) (l : list A) : list A :=
  match l with
  | [] => [x]
  | y :: l' =>
    if bool_decide (key x <= key y) then x :: y :: l'
    else y :: insert_by_key x l'
  end.

Definition sorted (l : list A) : list A := foldr insert_by_key [] l.
End Sorted.

(** ** The object graph ([src/github/models]) *)

Inductive MergeableState := MERGEABLE | CONFLICTING | UNKNOWN.

Inductive ReviewState :=
| APPROVED_REVIEW
| CHANGES_REQUESTED
| COMMENTED
| DISMISSED
| PENDING.

Record User := { login : string }.

Record Comment := {
  comment_author : User;
  comment_body : string;
  published_at : datetime;
}.

Record Review := {
  review_author : User;
  review_body : string;
  submitted_at : datetime;
  review_state : ReviewState;
}.

Record CheckRun := {
  database_id : Z;
  completed_at : option datetime;
}.

Record CheckSuite := { check_runs : list CheckRun }.

Record Commit := { check_suites : list CheckSuite }.

Record PullRequest := {
  id : string;
  number : Z;
  repository_owner_handle : string;
  repository_name : string;
  author_handle : string;
  title : string;
  body : string;
  labels : list string;
  closed : bool;
  merged : bool;
  merged_at : option datetime;
  mergeable : MergeableState;
  is_build_successful : bool;
  is_approved : bool;
  base_ref_name : string;
  reviews : list Review;
  comments : list Comment;
  commits : list Commit;
}.

#[global] Instance MergeableState_eq_dec : EqDecision MergeableState.
Proof. solve_decision. Defined.
#[global] Instance ReviewState_eq_dec : EqDecision ReviewState.
Proof. solve_decision. Defined.

(** Modelled from the spec: the accessors of the model classes, which are not
    part of the sources at hand.  A comment exposes one author handle; a
    review is an approval when its kind is APPROVED, and
    "is_approval_or_changes_requested" holds for the kinds APPROVED and
    CHANGES_REQUESTED only; a pull request "is mergeable" when its merge
    state is strictly MERGEABLE; a pull request has a label when the name is
    among its labels. *)
Definition comment_author_handle (c : Comment) : string := login (comment_author c).

Definition is_approval (r : Review) : bool :=
  bool_decide (review_state r = APPROVED_REVIEW).

Definition is_approval_or_changes_requested (r : Review) : bool :=
  bool_decide (review_state r = APPROVED_REVIEW)
  || bool_decide (review_state r = CHANGES_REQUESTED).

Definition is_mergeable (pr : PullRequest) : bool :=
  bool_decide (mergeable pr = MERGEABLE).

Definition pull_request_has_label (pr : PullRequest) (label : string) : bool :=
  bool_decide (label ∈ labels pr).

(** ** Configuration ([src/config]) *)

Record Config := {
  SGTM_FEATURE__AUTOMERGE_ENABLED : bool;
  SGTM_FEATURE__FOLLOWUP_REVIEW_GITHUB_USERS : gset string;
  SGTM_FEATURE__CHECK_RERUN_THRESHOLD_HOURS : Z;
  SGTM_FEATURE__CHECK_RERUN_BASE_REF_NAMES : list string;
  SGTM_FEATURE__CHECK_RERUN_ON_APPROVAL_ENABLED : bool;
}.

(** ** The GitHub client *)

Inductive Call :=
| AddPrComment (owner repo : string) (pr_number : Z) (comment : string)
| MergePullRequest (owner repo : string) (pr_number : Z) (title body : string)
| RerequestCheckRun (owner repo : string) (check_run_id : Z).

#[global] Instance Call_eq_dec : EqDecision Call.
Proof. solve_decision. Defined.

(** A computation receives the calls issued so far and returns its outcome
    with the calls issued up to its end. *)
Record M (A : Type) := mkM { run : list Call -> outcome A * list Call }.
Arguments mkM {A} run.
Arguments run {A} m t.

#[global] Instance M_ret : MRet M := fun _ a => mkM (fun t => (Return a, t)).
#[global] Instance M_bind : MBind M := fun _ _ f m =>
  mkM (fun t =>
    match run m t with
    | (Return a, t') => run (f a) t'
    | (Raise e, t') => (Raise e, t')
    end).

Definition lift {A} (o : outcome A) : M A := mkM (fun t => (o, t)).

Definition issue (c : Call) : M unit := mkM (fun t => (Return tt, t ++ [c])).

(** ** Text signals *)

(** The UTF-8 encoding of one code point. *)
Definition utf8_encode (cp : Z) : string :=
  let byte (z : Z) := ascii_of_N (Z.to_N z) in
  let cont (z : Z) := byte (128 + Z.land z 63) in
  if bool_decide (cp < 128) then String (byte cp) ""
  else if bool_decide (cp < 2048) then
    String (byte (192 + Z.shiftr cp 6)) (String (cont cp) "")
  else if bool_decide (cp < 65536) then
    String (byte (224 + Z.shiftr cp 12))
      (String (cont (Z.shiftr cp 6)) (String (cont cp) ""))
  else
    String (byte (240 + Z.shiftr cp 18))
      (String (cont (Z.shiftr cp 12))
        (String (cont (Z.shiftr cp 6)) (String (cont cp) ""))).

(** The characters the class [\s] matches in a [str] pattern. *)
Definition whitespace : list string :=
  utf8_encode <$>
    [9; 10; 11; 12; 13; 28; 29; 30; 31; 32; 133; 160; 5760;
     8192; 8193; 8194; 8195; 8196; 8197; 8198; 8199; 8200; 8201; 8202;
     8232; 8233; 8239; 8287; 12288].

(** The regular expressions of this module need literal text and an optional
    white-space character only. *)
Inductive re_item :=
| Lit (s : string)
| OptSpace.

Fixpoint strip_prefix (p s : string) : option string :=
  match p, s with
  | EmptyString, _ => Some s
  | String a p', String b s' =>
    if bool_decide (a = b) then strip_prefix p' s' else None
  | String _ _, EmptyString => None
  end.

Fixpoint match_here (items : list re_item) (s : string) : bool :=
  match items with
  | [] => true
  | Lit p :: rest =>
    match strip_prefix p s with
    | Some s' => match_here rest s'
    | None => false
    end
  | OptSpace :: rest =>
    existsb (fun w =>
      match strip_prefix w s with
      | Some s' => match_here rest s'
      | None => false
      end) whitespace
    || match_here rest s
  end.

(** [re.search(pattern, s) is not None] for a pattern that is an alternation:
    some alternative matches at some position of [s]. *)
Fixpoint re_search (alternatives : list (list re_item)) (s : string) : bool :=
  existsb (fun alt => match_here alt s) alternatives
  || match s with
     | EmptyString => false
     | String _ s' => re_search alternatives s'
     end.

Definition APPROVAL_REGEX : list (list re_item) :=
  [ [Lit "sgtm"]; [Lit "lgtm"]; [Lit "sounds good"]; [Lit "sound good"];
    [Lit "looks good"]; [Lit "look good"]; [Lit "looks great"];
    [Lit "look great"]; [Lit "+1"]; [Lit "ship"; OptSpace; Lit "it"];
    [Lit (utf8_encode 128077)]; [Lit (utf8_encode 128674)] ].

(** [str.lower] on the ASCII letters, for concrete inputs. *)
Definition ascii_lower (s : string) : string :=
  let lower_char (a : ascii) :=
    let n := N_of_ascii a in
    if bool_decide (65 <= n <= 90)%N then ascii_of_N (n + 32) else a in
  (fix go (s : string) : string :=
     match s with
     | EmptyString => EmptyString
     | String a s' => String (lower_char a) (go s')
     end) s.

(** ** Constants of [logic.py] *)

Definition AUTOMERGE_COMMENT_WARNING_AFTER_TESTS_AND_APPROVAL : string :=
  "**:warning: Reviewer:** If you approve this PR, it will be auto-merged as soon as"
  +:+ " tests pass. If you don't want this to be auto-merged, either Request Changes or"
  +:+ " remove the auto-merge label before accepting.".

Definition AUTOMERGE_COMMENT_WARNING_AFTER_APPROVAL : string :=
  "**:warning: Reviewer:** If you approve this PR, it will be auto-merged immediately."
  +:+ " If you don't want this to be auto-merged, either Request Changes or"
  +:+ " remove the auto-merge label before accepting.".

Inductive AutomergeLabel :=
| AFTER_TESTS_AND_APPROVAL
| AFTER_TESTS
| AFTER_APPROVAL
| IMMEDIATELY.

#[global] Instance AutomergeLabel_eq_dec : EqDecision AutomergeLabel.
Proof. solve_decision. Defined.

Definition value (l : AutomergeLabel) : string :=
  match l with
  | AFTER_TESTS_AND_APPROVAL => "merge after tests and approval"
  | AFTER_TESTS => "merge after tests"
  | AFTER_APPROVAL => "merge after approval"
  | IMMEDIATELY => "merge immediately"
  end.

Inductive ApprovedBeforeMergeStatus := NO | NEEDS_FOLLOWUP | APPROVED.

#[global] Instance ApprovedBeforeMergeStatus_eq_dec : EqDecision ApprovedBeforeMergeStatus.
Proof. solve_decision. Defined.

(** ** The decision logic *)

Section Logic.
(** The configuration values [logic.py] imports, [str.lower], the clock
    read by [datetime.now(timezone.utc)], and the answer of the client to
    a rerequest of a check run (it may depend on the calls issued so
    far). *)
Variable cfg : Config.
Variable str_lower : string -> string.
Variable now : datetime.
Variable rerequest_reply : list Call -> string -> string -> Z -> bool.

(** *** [github_client] *)

Definition add_pr_comment (owner repo : string) (pr_number : Z)
    (comment : string) : M unit :=
  issue (AddPrComment owner repo pr_number comment).

Definition merge_pull_request (owner repo : string) (pr_number : Z)
    (title body : string) : M unit :=
  issue (MergePullRequest owner repo pr_number title body).

Definition rerequest_check_run (owner repo : string) (check_run_id : Z) : M bool :=
  mkM (fun t =>
    (Return (rerequest_reply t owner repo check_run_id),
     t ++ [RerequestCheckRun owner repo check_run_id])).

(** *** Approval *)

Definition needs_followup (handle : string) : Prop :=
  handle ∈ SGTM_FEATURE__FOLLOWUP_REVIEW_GITHUB_USERS cfg.

Definition pull_request_approved_before_merging (pull_request : PullRequest)
    : outcome ApprovedBeforeMergeStatus :=
  _ ← py_assert (merged pull_request)
        "Checked for pre-merge approval on a non-merged PR";
  match merged_at pull_request with
  | None => Return NO
  | Some merged_at =>
    let premerge_reviews :=
      sorted submitted_at
        (filter (fun review =>
                   is_approval_or_changes_requested review
                   ∧ submitted_at review < merged_at)
                (reviews pull_request)) in
    if bool_decide (length premerge_reviews = 0%nat) then Return NO
    else
      latest_review ← getitem premerge_reviews (-1);
      if negb (is_approval latest_review) then Return NO
      else if bool_decide (needs_followup (login (review_author latest_review))) then
        let no_followup_reviews :=
          filter (fun r => ¬ needs_followup (login (review_author r)))
                 premerge_reviews in
        if bool_decide (length no_followup_reviews = 0%nat)
        then Return NEEDS_FOLLOWUP
        else
          last_no_followup ← getitem no_followup_reviews (-1);
          if negb (is_approval last_no_followup) then Return NEEDS_FOLLOWUP
          else Return APPROVED
      else Return APPROVED
  end.

Definition _is_approval_comment_body (body : string) : bool :=
  re_search APPROVAL_REGEX (str_lower body).

Definition pull_request_approved_after_merging (pull_request : PullRequest) : bool :=
  match merged_at pull_request with
  | Some merged_at =>
    let postmerge_comments :=
      filter (fun comment =>
                merged_at <= published_at comment
                ∧ comment_author_handle comment ≠ author_handle pull_request
                ∧ ¬ needs_followup (login (comment_author comment)))
             (comments pull_request) in
    let postmerge_reviews :=
      filter (fun review =>
                merged_at <= submitted_at review
                ∧ ¬ needs_followup (login (review_author review)))
             (reviews pull_request) in
    let body_texts :=
      (comment_body <$> postmerge_comments) ++ (review_body <$> postmerge_reviews) in
    negb (bool_decide (filter (fun body_text => _is_approval_comment_body body_text)
                              body_texts = []))
  | None => false
  end.

(** *** Automerge helpers *)

Definition _pull_request_is_open (pull_request : PullRequest) : bool :=
  negb (closed pull_request) && negb (merged pull_request).

Definition _pull_request_has_automerge_comment (pull_request : PullRequest)
    (automerge_comment : string) : bool :=
  existsb (fun comment => bool_decide (comment_body comment = automerge_comment))
          (comments pull_request).

Definition is_check_run_stale (freshness_date : datetime) (check_run : CheckRun) : bool :=
  match completed_at check_run with
  | Some check_run_completion_time =>
    bool_decide (check_run_completion_time < freshness_date)
  | None => false
  end.

(** The inner loop of [_maybe_rerun_stale_checks]: it leaves the check
    suite at the first stale check run. *)
Fixpoint scan_check_runs (pull_request : PullRequest) (freshness_date : datetime)
    (runs : list CheckRun) (did_rerun : bool) : M bool :=
  match runs with
  | [] => mret did_rerun
  | check_run :: rest =>
    if is_check_run_stale freshness_date check_run then
      r ← rerequest_check_run (repository_owner_handle pull_request)
            (repository_name pull_request) (database_id check_run);
      mret (did_rerun || r)
    else scan_check_runs pull_request freshness_date rest did_rerun
  end.

(** The outer loop. *)
Fixpoint scan_check_suites (pull_request : PullRequest) (freshness_date : datetime)
    (suites : list CheckSuite) (did_rerun : bool) : M bool :=
  match suites with
  | [] => mret did_rerun
  | check_suite :: rest =>
    did_rerun' ← scan_check_runs pull_request freshness_date
                   (check_runs check_suite) did_rerun;
    scan_check_suites pull_request freshness_date rest did_rerun'
  end.

Definition _maybe_rerun_stale_checks (pull_request : PullRequest) : M bool :=
  if bool_decide (base_ref_name pull_request
                  ∉ SGTM_FEATURE__CHECK_RERUN_BASE_REF_NAMES cfg)
  then mret false
  else if bool_decide (SGTM_FEATURE__CHECK_RERUN_THRESHOLD_HOURS cfg <= 0)
  then mret false
  else
    let did_rerun := false in
    threshold ← lift (timedelta (SGTM_FEATURE__CHECK_RERUN_THRESHOLD_HOURS cfg));
    freshness_date ← lift (datetime_sub now threshold);
    first_commit ← lift (getitem (commits pull_request) 0);
    scan_check_suites pull_request freshness_date
      (check_suites first_commit) did_rerun.

(** *** Automerge *)

Definition maybe_add_automerge_warning_comment (pull_request : PullRequest) : M unit :=
  if SGTM_FEATURE__AUTOMERGE_ENABLED cfg then
    let owner := repository_owner_handle pull_request in
    let repo_name := repository_name pull_request in
    let pr_number := number pull_request in
    let has_automerge_after_tests_and_approval :=
      pull_request_has_label pull_request (value AFTER_TESTS_AND_APPROVAL) in
    let has_automerge_after_approval :=
      pull_request_has_label pull_request (value AFTER_APPROVAL) in
    let automerge_comment :=
      if has_automerge_after_tests_and_approval
      then AUTOMERGE_COMMENT_WARNING_AFTER_TESTS_AND_APPROVAL
      else AUTOMERGE_COMMENT_WARNING_AFTER_APPROVAL in
    if (has_automerge_after_tests_and_approval || has_automerge_after_approval)
       && negb (_pull_request_has_automerge_comment pull_request automerge_comment)
       && negb (is_approved pull_request)
    then add_pr_comment owner repo_name pr_number automerge_comment
    else mret tt
  else mret tt.

(** [a and f()] where [f] has effects: [f] runs only when [a] holds. *)
Definition and_then (a : bool) (f : M bool) : M bool :=
  if a then f else mret false.

Definition maybe_automerge_pull_request_and_rerun_stale_checks
    (pull_request : PullRequest) (did_rerun_stale_required_checks : bool) : M bool :=
  let is_pull_request_ready_for_automerge := false in
  let did_rerun_stale_required_checks := false in
  '(is_pull_request_ready_for_automerge, did_rerun_stale_required_checks) ←
    (if negb (SGTM_FEATURE__AUTOMERGE_ENABLED cfg)
        || negb (_pull_request_is_open pull_request)
     then mret (false, did_rerun_stale_required_checks)
     else if pull_request_has_label pull_request (value IMMEDIATELY) then
       mret (bool_decide (mergeable pull_request ∈ [MERGEABLE; UNKNOWN]),
             did_rerun_stale_required_checks)
     else if pull_request_has_label pull_request (value AFTER_TESTS) then
       let ready :=
         is_build_successful pull_request && is_mergeable pull_request in
       did_rerun ← and_then ready (_maybe_rerun_stale_checks pull_request);
       mret (ready, did_rerun)
     else if pull_request_has_label pull_request (value AFTER_TESTS_AND_APPROVAL) then
       let ready :=
         is_build_successful pull_request && is_mergeable pull_request
         && is_approved pull_request in
       if negb did_rerun_stale_required_checks then
         did_rerun ← and_then ready (_maybe_rerun_stale_checks pull_request);
         mret (ready, did_rerun)
       else mret (ready, did_rerun_stale_required_checks)
     else if pull_request_has_label pull_request (value AFTER_APPROVAL) then
       mret (is_mergeable pull_request && is_approved pull_request,
             did_rerun_stale_required_checks)
     else
       mret (is_pull_request_ready_for_automerge, did_rerun_stale_required_checks));
  if is_pull_request_ready_for_automerge && negb did_rerun_stale_required_checks then
    _ ← merge_pull_request (repository_owner_handle pull_request)
          (repository_name pull_request) (number pull_request)
          (title pull_request) (body pull_request);
    mret true
  else mret false.

Definition maybe_rerun_stale_checks_on_approved_pull_request
    (pull_request : PullRequest) : M bool :=
  if SGTM_FEATURE__CHECK_RERUN_ON_APPROVAL_ENABLED cfg
     && _pull_request_is_open pull_request
     && is_approved pull_request
  then _maybe_rerun_stale_checks pull_request
  else mret false.

End Logic.

(** ** Text of pull requests, mentions and participants *)

Definition LF : string := String (ascii_of_N 10) "".

Definition inject_asana_task_into_pull_request_body (body task_url : string) : string :=
  (body +:+ (LF +:+ LF +:+ LF))
  +:+ ("Pull Request synchronized with [Asana task](" +:+ task_url +:+ ")").

(** The characters of the class [[a-zA-Z0-9_\-]], and the ASCII characters
    of the class [\w]. *)
Definition is_ascii_alnum (a : ascii) : bool :=
  let n := N_of_ascii a in
  bool_decide (97 <= n <= 122)%N || bool_decide (65 <= n <= 90)%N
  || bool_decide (48 <= n <= 57)%N.

Definition is_handle_char (a : ascii) : bool :=
  is_ascii_alnum a || bool_decide (a = "_"%char) || bool_decide (a = "-"%char).

Definition is_ascii_word_char (a : ascii) : bool :=
  is_ascii_alnum a || bool_decide (a = "_"%char).

(** The longest run of handle characters at the start of [s]. *)
Fixpoint take_handle (s : string) : string :=
  match s with
  | String a s' => if is_handle_char a then String a (take_handle s') else ""
  | EmptyString => ""
  end.

Fixpoint last_byte (s : string) : option ascii :=
  match s with
  | EmptyString => None
  | String a EmptyString => Some a
  | String _ s' => last_byte s'
  end.

Section Mentions.
(** Whether the last character of a text, a character outside ASCII, is a
    word character of a [str] pattern (alphanumeric as the Unicode database
    has it). *)
Variable unicode_word_before : string -> bool.

(** [\B] in front of an [@]: the text before it does not end in a word
    character. *)
Definition word_before (before : string) : bool :=
  match last_byte before with
  | None => false
  | Some a =>
    if bool_decide (N_of_ascii a < 128)%N then is_ascii_word_char a
    else unicode_word_before before
  end.

(** [re.findall] for the pattern [\B@([a-zA-Z0-9_\-]+)]: the text is gone
    through from the left; [before] is what was gone through, [skip] the
    number of characters of the last match still to pass.  A match starts at
    an [@] in front of which the text does not end in a word character and
    after which a handle character stands; it takes the longest run of
    handle characters, which is what the group captures, and the search
    goes on behind it. *)
Fixpoint scan_mentions (before : string) (skip : nat) (s : string) : list string :=
  match s with
  | EmptyString => []
  | String c s' =>
    match skip with
    | S skip' => scan_mentions (before +:+ String c "") skip' s'
    | O =>
      if bool_decide (c = "@"%char) && negb (word_before before) then
        let handle := take_handle s' in
        if bool_decide (handle = "") then scan_mentions (before +:+ "@") 0 s'
        else handle :: scan_mentions (before +:+ "@") (String.length handle) s'
      else scan_mentions (before +:+ String c "") 0 s'
    end
  end.

Definition _extract_mentions (text : string) : list string :=
  scan_mentions "" 0 text.

Definition _pull_request_body_mentions (pull_request : PullRequest) : list string :=
  _extract_mentions (body pull_request).

(** [list(set(l))]: the elements of [l], each once.  Python leaves their
    order open; the order here is that of the set of stdpp. *)
Definition list_of_set (l : list string) : list string :=
  elements (list_to_set l : gset string).

Definition comment_participants_and_mentions (comment : Comment) : list string :=
  list_of_set ([comment_author_handle comment]
               ++ _extract_mentions (comment_body comment)).

(** Accessors of the model classes that the records above do not carry: the
    comments of a review, the assignees of a pull request and its requested
    reviewers, with or without the members of requested teams; and the
    configuration value that says which. *)
Variable review_comments : Review -> list Comment.
Variable assignees : PullRequest -> list string.
Variable requested_reviewers : PullRequest -> bool -> list string.
Variable SGTM_FEATURE__DISABLE_GITHUB_TEAM_SUBSCRIPTION : bool.

Definition review_participants_and_mentions (review : Review) : list string :=
  let review_texts :=
    [review_body review] ++ (comment_body <$> review_comments review) in
  list_of_set ([login (review_author review)]
               ++ (review_text ← review_texts; _extract_mentions review_text)).

Definition pull_request_participants (pull_request : PullRequest) : list string :=
  list_of_set
    (filter (fun gh_handle => gh_handle <> "")
       ([author_handle pull_request]
        ++ assignees pull_request
        ++ requested_reviewers pull_request
             (negb SGTM_FEATURE__DISABLE_GITHUB_TEAM_SUBSCRIPTION)
        ++ _pull_request_body_mentions pull_request)).

End Mentions.

(** ** Notions of the specification *)

(** A snapshot that differs from [pr] in its comments, or in its reviews. *)
Definition set_comments (pr : PullRequest) (cs : list Comment) : PullRequest :=
  {| id := id pr; number := number pr;
     repository_owner_handle := repository_owner_handle pr;
     repository_name := repository_name pr; author_handle := author_handle pr;
     title := title pr; body := body pr; labels := labels pr;
     closed := closed pr; merged := merged pr; merged_at := merged_at pr;
     mergeable := mergeable pr; is_build_successful := is_build_successful pr;
     is_approved := is_approved pr; base_ref_name := base_ref_name pr;
     reviews := reviews pr; comments := cs; commits := commits pr |}.

Definition set_reviews (pr : PullRequest) (rs : list Review) : PullRequest :=
  {| id := id pr; number := number pr;
     repository_owner_handle := repository_owner_handle pr;
     repository_name := repository_name pr; author_handle := author_handle pr;
     title := title pr; body := body pr; labels := labels pr;
     closed := closed pr; merged := merged pr; merged_at := merged_at pr;
     mergeable := mergeable pr; is_build_successful := is_build_successful pr;
     is_approved := is_approved pr; base_ref_name := base_ref_name pr;
     reviews := rs; comments := comments pr; commits := commits pr |}.

Section Specification.
Variable cfg : Config.

(** *** Post-merge approval *)

(** The comments and reviews the specification lets count after a merge
    at [t]. *)
Definition qualifying_comment (pr : PullRequest) (t : datetime) (c : Comment) : Prop :=
  c ∈ comments pr
  ∧ t <= published_at c
  ∧ comment_author_handle c ≠ author_handle pr
  ∧ ¬ needs_followup cfg (comment_author_handle c).

Definition qualifying_review (pr : PullRequest) (t : datetime) (r : Review) : Prop :=
  r ∈ reviews pr
  ∧ t <= submitted_at r
  ∧ ¬ needs_followup cfg (login (review_author r)).

(** Some body among the qualifying comments and reviews is an approval
    marker. *)
Definition marker_among_qualifying (str_lower : string -> string)
    (pr : PullRequest) (t : datetime) : Prop :=
  (exists c, qualifying_comment pr t c
             /\ _is_approval_comment_body str_lower (comment_body c) = true)
  \/ (exists r, qualifying_review pr t r
              /\ _is_approval_comment_body str_lower (review_body r) = true).

(** Whose comments are ignored, and whose reviews. *)
Definition ignored_comment (pr : PullRequest) (c : Comment) : Prop :=
  comment_author_handle c = author_handle pr
  ∨ needs_followup cfg (comment_author_handle c).

Definition ignored_review (r : Review) : Prop :=
  needs_followup cfg (login (review_author r)).

(** The reading under which reviews of the author of the pull request are
    ignored as its comments are. *)
Definition ignored_review_or_by_author (pr : PullRequest) (r : Review) : Prop :=
  login (review_author r) = author_handle pr
  ∨ needs_followup cfg (login (review_author r)).

#[global] Instance needs_followup_dec h : Decision (needs_followup cfg h).
Proof. unfold needs_followup. apply _. Defined.
#[global] Instance ignored_comment_dec pr c : Decision (ignored_comment pr c).
Proof. unfold ignored_comment. apply _. Defined.
#[global] Instance ignored_review_dec r : Decision (ignored_review r).
Proof. unfold ignored_review. apply _. Defined.
#[global] Instance ignored_review_or_by_author_dec pr r :
  Decision (ignored_review_or_by_author pr r).
Proof. unfold ignored_review_or_by_author. apply _. Defined.

Definition without_ignored (pr : PullRequest) : PullRequest :=
  set_reviews
    (set_comments pr (filter (fun c => ¬ ignored_comment pr c) (comments pr)))
    (filter (fun r => ¬ ignored_review r) (reviews pr)).

Definition without_author_and_followup (pr : PullRequest) : PullRequest :=
  set_reviews
    (set_comments pr (filter (fun c => ¬ ignored_comment pr c) (comments pr)))
    (filter (fun r => ¬ ignored_review_or_by_author pr r) (reviews pr)).

(** *** Pre-merge approval *)

(** [s] is [l] sorted ascending by [key], ties kept in the order of [l]. *)
Definition stable_sort_of {A} (key : A -> Z) (l s : list A) : Prop :=
  StronglySorted (fun x y => key x <= key y) s
  /\ forall k, filter (fun x => key x = k) s = filter (fun x => key x = k) l.

(** The procedure of the specification, for a pull request merged at
    [t]. *)
Definition premerge_reviews_reference (pr : PullRequest) (t : datetime) : list Review :=
  sorted submitted_at
    (filter (fun r => (review_state r = APPROVED_REVIEW
                       \/ review_state r = CHANGES_REQUESTED)
                      /\ submitted_at r < t)
            (reviews pr)).

Definition approved_before_merging_reference (pr : PullRequest) (t : datetime)
    : ApprovedBeforeMergeStatus :=
  let premerge := premerge_reviews_reference pr t in
  match last premerge with
  | None => NO
  | Some latest =>
    if decide (review_state latest = APPROVED_REVIEW) then
      if decide (needs_followup cfg (login (review_author latest))) then
        match last (filter (fun r => ~ needs_followup cfg (login (review_author r)))
                           premerge) with
        | Some corroborating =>
          if decide (review_state corroborating = APPROVED_REVIEW)
          then APPROVED else NEEDS_FOLLOWUP
        | None => NEEDS_FOLLOWUP
        end
      else APPROVED
    else NO
  end.

End Specification.

(** *** Effects *)

(** The calls a computation issues when it starts after the calls [t]. *)
Definition calls_issued {A} (m : M A) (t : list Call) : list Call :=
  drop (length t) (snd (run m t)).

Definition returned {A} (m : M A) (t : list Call) : outcome A := fst (run m t).

(** *** The stale-check scan *)

(** A check run is stale when it has completed, strictly before the
    freshness boundary. *)
Definition stale (freshness_boundary : datetime) (r : CheckRun) : Prop :=
  exists t, completed_at r = Some t /\ t < freshness_boundary.

(** The check run of a suite that is rerun, if any: the first stale one. *)
Inductive suite_rerun (freshness_boundary : datetime)
  : list CheckRun -> option CheckRun -> Prop :=
| suite_rerun_none runs :
    Forall (fun r => ~ stale freshness_boundary r) runs ->
    suite_rerun freshness_boundary runs None
| suite_rerun_first earlier r later :
    Forall (fun r' => ~ stale freshness_boundary r') earlier ->
    stale freshness_boundary r ->
    suite_rerun freshness_boundary (earlier ++ r :: later) (Some r).

Definition rerun_call (pr : PullRequest) (r : CheckRun) : Call :=
  RerequestCheckRun (repository_owner_handle pr) (repository_name pr) (database_id r).

Definition merge_call (pr : PullRequest) : Call :=
  MergePullRequest (repository_owner_handle pr) (repository_name pr) (number pr)
    (title pr) (body pr).

Section Automation.
Variable cfg : Config.
Variable now : datetime.
Variable rerequest_reply : list Call -> string -> string -> Z -> bool.

Definition freshness_boundary : datetime :=
  now - timedelta_hours (SGTM_FEATURE__CHECK_RERUN_THRESHOLD_HOURS cfg).

(** The clock minus the threshold is a [datetime]: the subtraction does
    not leave the range. *)
Definition freshness_date_representable : Prop :=
  timedelta_representable
    (timedelta_hours (SGTM_FEATURE__CHECK_RERUN_THRESHOLD_HOURS cfg))
  /\ datetime_representable freshness_boundary.

#[global] Instance freshness_date_representable_dec :
  Decision freshness_date_representable.
Proof.
  unfold freshness_date_representable, timedelta_representable,
    datetime_representable. apply _.
Defined.

(** The check suites a call of the scan goes through: those of the first
    commit, when the base ref is allowed, the threshold positive and the
    freshness date a [datetime]. *)
Definition scanned_suites (pr : PullRequest) : list CheckSuite :=
  if decide (base_ref_name pr ∈ SGTM_FEATURE__CHECK_RERUN_BASE_REF_NAMES cfg
             /\ 0 < SGTM_FEATURE__CHECK_RERUN_THRESHOLD_HOURS cfg
             /\ freshness_date_representable)
  then match commits pr with
       | first_commit :: _ => check_suites first_commit
       | [] => []
       end
  else [].

(** *** Automerge *)

(** The readiness predicates. *)
Definition readiness (l : AutomergeLabel) (pr : PullRequest) : bool :=
  match l with
  | IMMEDIATELY =>
    bool_decide (mergeable pr = MERGEABLE \/ mergeable pr = UNKNOWN)
  | AFTER_TESTS => is_build_successful pr && is_mergeable pr
  | AFTER_TESTS_AND_APPROVAL =>
    is_build_successful pr && is_mergeable pr && is_approved pr
  | AFTER_APPROVAL => is_mergeable pr && is_approved pr
  end.

Definition requires_tests (l : AutomergeLabel) : bool :=
  match l with
  | AFTER_TESTS | AFTER_TESTS_AND_APPROVAL => true
  | IMMEDIATELY | AFTER_APPROVAL => false
  end.

(** The first label, in the order of [precedence], that the pull request
    carries. *)
Definition selected_label (precedence : list AutomergeLabel) (pr : PullRequest)
    : option AutomergeLabel :=
  snd <$> list_find (fun l => value l ∈ labels pr) precedence.

(** The order in which the specification scans the labels, and the order
    in which [maybe_automerge_pull_request_and_rerun_stale_checks] does. *)
Definition SPECIFIED_PRECEDENCE : list AutomergeLabel :=
  [IMMEDIATELY; AFTER_TESTS_AND_APPROVAL; AFTER_TESTS; AFTER_APPROVAL].

Definition CODED_PRECEDENCE : list AutomergeLabel :=
  [IMMEDIATELY; AFTER_TESTS; AFTER_TESTS_AND_APPROVAL; AFTER_APPROVAL].

(** The procedure of the specification, for a given order of scanning:
    one label is selected and its predicate alone decides readiness. *)
Definition automerge_by_precedence (precedence : list AutomergeLabel)
    (pr : PullRequest) : M bool :=
  if negb (SGTM_FEATURE__AUTOMERGE_ENABLED cfg) || closed pr || merged pr
  then mret false
  else
    match selected_label precedence pr with
    | None => mret false
    | Some l =>
      let ready := readiness l pr in
      did_rerun ←
        (if requires_tests l && ready
         then _maybe_rerun_stale_checks cfg now rerequest_reply pr
         else mret false);
      if ready && negb did_rerun then
        _ ← issue (merge_call pr); mret true
      else mret false
    end.

(** Readiness under the label the code selects. *)
Definition ready_for_automerge (pr : PullRequest) : bool :=
  SGTM_FEATURE__AUTOMERGE_ENABLED cfg && negb (closed pr) && negb (merged pr)
  && match selected_label CODED_PRECEDENCE pr with
     | Some l => readiness l pr
     | None => false
     end.

(** The attempt to rerun stale checks that a pass makes: the scan, for a
    ready pull request under a label that requires tests. *)
Definition rerun_attempt (pr : PullRequest) : M bool :=
  if ready_for_automerge pr
     && match selected_label CODED_PRECEDENCE pr with
        | Some l => requires_tests l
        | None => false
        end
  then _maybe_rerun_stale_checks cfg now rerequest_reply pr
  else mret false.

(** *** The warning comment *)

Definition warning_text (pr : PullRequest) : string :=
  if decide (value AFTER_TESTS_AND_APPROVAL ∈ labels pr)
  then AUTOMERGE_COMMENT_WARNING_AFTER_TESTS_AND_APPROVAL
  else AUTOMERGE_COMMENT_WARNING_AFTER_APPROVAL.

Definition warning_call (pr : PullRequest) : Call :=
  AddPrComment (repository_owner_handle pr) (repository_name pr) (number pr)
    (warning_text pr).

Definition warning_due (pr : PullRequest) : Prop :=
  SGTM_FEATURE__AUTOMERGE_ENABLED cfg = true
  /\ (value AFTER_TESTS_AND_APPROVAL ∈ labels pr \/ value AFTER_APPROVAL ∈ labels pr)
  /\ is_approved pr = false
  /\ Forall (fun c => comment_body c <> warning_text pr) (comments pr).

(** [pr'] is a snapshot fetched after the calls [calls] were issued on
    [pr], nothing else having changed: every comment added is among its
    comments. *)
Definition refetched_after (calls : list Call) (pr pr' : PullRequest) : Prop :=
  repository_owner_handle pr' = repository_owner_handle pr
  /\ repository_name pr' = repository_name pr
  /\ number pr' = number pr
  /\ labels pr' = labels pr
  /\ is_approved pr' = is_approved pr
  /\ (forall c, c ∈ comments pr -> c ∈ comments pr')
  /\ (forall text,
        AddPrComment (repository_owner_handle pr) (repository_name pr) (number pr) text
          ∈ calls ->
        exists c, c ∈ comments pr' /\ comment_body c = text).

End Automation.

(** ** Concrete snapshots *)

Definition example_config : Config := {|
  SGTM_FEATURE__AUTOMERGE_ENABLED := true;
  SGTM_FEATURE__FOLLOWUP_REVIEW_GITHUB_USERS := {[ "followup-bot" ]};
  SGTM_FEATURE__CHECK_RERUN_THRESHOLD_HOURS := 12;
  SGTM_FEATURE__CHECK_RERUN_BASE_REF_NAMES := ["main"; "master"];
  SGTM_FEATURE__CHECK_RERUN_ON_APPROVAL_ENABLED := true |}.

(** A threshold of twenty million hours: more than the 2000 years or so
    between the year 1 and the clock. *)
Definition config_with_huge_threshold : Config := {|
  SGTM_FEATURE__AUTOMERGE_ENABLED := true;
  SGTM_FEATURE__FOLLOWUP_REVIEW_GITHUB_USERS := {[ "followup-bot" ]};
  SGTM_FEATURE__CHECK_RERUN_THRESHOLD_HOURS := 20000000;
  SGTM_FEATURE__CHECK_RERUN_BASE_REF_NAMES := ["main"; "master"];
  SGTM_FEATURE__CHECK_RERUN_ON_APPROVAL_ENABLED := true |}.

Definition open_pull_request : PullRequest := {|
  id := "PR_kwDOA1"; number := 7;
  repository_owner_handle := "acme"; repository_name := "app";
  author_handle := "alice"; title := "Add retry"; body := "Retries twice.";
  labels := []; closed := false; merged := false; merged_at := None;
  mergeable := MERGEABLE; is_build_successful := true; is_approved := false;
  base_ref_name := "main"; reviews := []; comments := []; commits := [] |}.

(** Merged, but the time of the merge is unknown. *)
Definition merged_at_unknown : PullRequest := {|
  id := "PR_kwDOA2"; number := 8;
  repository_owner_handle := "acme"; repository_name := "app";
  author_handle := "alice"; title := "Add retry"; body := "Retries twice.";
  labels := []; closed := true; merged := true; merged_at := None;
  mergeable := UNKNOWN; is_build_successful := true; is_approved := false;
  base_ref_name := "main"; reviews := []; comments := []; commits := [] |}.

(** Merged at 100; afterwards its author submits a review that reads
    "LGTM". *)
Definition self_reviewed_after_merge : PullRequest := {|
  id := "PR_kwDOA3"; number := 9;
  repository_owner_handle := "acme"; repository_name := "app";
  author_handle := "alice"; title := "Add retry"; body := "Retries twice.";
  labels := []; closed := true; merged := true; merged_at := Some 100;
  mergeable := UNKNOWN; is_build_successful := true; is_approved := false;
  base_ref_name := "main";
  reviews := [ {| review_author := {| login := "alice" |}; review_body := "LGTM";
                  submitted_at := 150; review_state := COMMENTED |} ];
  comments := []; commits := [] |}.

(** Merged at 100; a colleague comments "Ship it" afterwards, the author and
    the follow-up reviewer comment too. *)
Definition approved_by_comment_after_merge : PullRequest := {|
  id := "PR_kwDOA4"; number := 10;
  repository_owner_handle := "acme"; repository_name := "app";
  author_handle := "alice"; title := "Add retry"; body := "Retries twice.";
  labels := []; closed := true; merged := true; merged_at := Some 100;
  mergeable := UNKNOWN; is_build_successful := true; is_approved := false;
  base_ref_name := "main";
  reviews := [ {| review_author := {| login := "followup-bot" |};
                  review_body := "looks good"; submitted_at := 120;
                  review_state := APPROVED_REVIEW |} ];
  comments := [ {| comment_author := {| login := "alice" |};
                   comment_body := "+1"; published_at := 110 |};
                {| comment_author := {| login := "bob" |};
                   comment_body := "Ship it"; published_at := 130 |} ];
  commits := [] |}.

(** Merged at 100 after an approval at 50 and a later approval of the
    follow-up reviewer at 80; a request for changes arrived after the
    merge. *)
Definition merged_after_followup_approval : PullRequest := {|
  id := "PR_kwDOA5"; number := 11;
  repository_owner_handle := "acme"; repository_name := "app";
  author_handle := "alice"; title := "Add retry"; body := "Retries twice.";
  labels := []; closed := true; merged := true; merged_at := Some 100;
  mergeable := UNKNOWN; is_build_successful := true; is_approved := true;
  base_ref_name := "main";
  reviews := [ {| review_author := {| login := "followup-bot" |};
                  review_body := ""; submitted_at := 80;
                  review_state := APPROVED_REVIEW |};
               {| review_author := {| login := "carol" |};
                  review_body := "wait"; submitted_at := 120;
                  review_state := CHANGES_REQUESTED |};
               {| review_author := {| login := "bob" |};
                  review_body := "fine"; submitted_at := 50;
                  review_state := APPROVED_REVIEW |} ];
  comments := []; commits := [] |}.

(** The clock of the examples: hour 1000.  With the threshold of twelve
    hours a check run that completed before hour 988 is stale. *)
Definition example_now : datetime := timedelta_hours 1000.

Definition rerequest_accepted : list Call -> string -> string -> Z -> bool :=
  fun _ _ _ _ => true.

(** Open, build successful, mergeable, not approved, labelled both "merge
    after tests and approval" and "merge after tests"; its base ref is not
    among those whose checks are rerun. *)
Definition labelled_tests_and_approval_and_tests : PullRequest := {|
  id := "PR_kwDOA6"; number := 12;
  repository_owner_handle := "acme"; repository_name := "app";
  author_handle := "alice"; title := "Add retry"; body := "Retries twice.";
  labels := [value AFTER_TESTS_AND_APPROVAL; value AFTER_TESTS];
  closed := false; merged := false; merged_at := None;
  mergeable := MERGEABLE; is_build_successful := true; is_approved := false;
  base_ref_name := "develop"; reviews := []; comments := [];
  commits := [ {| check_suites := [] |} ] |}.

(** Open, merge state not computed yet, build failed, labelled both "merge
    immediately" and "merge after approval". *)
Definition labelled_immediately_and_after_approval : PullRequest := {|
  id := "PR_kwDOA7"; number := 13;
  repository_owner_handle := "acme"; repository_name := "app";
  author_handle := "alice"; title := "Add retry"; body := "Retries twice.";
  labels := [value AFTER_APPROVAL; value IMMEDIATELY];
  closed := false; merged := false; merged_at := None;
  mergeable := UNKNOWN; is_build_successful := false; is_approved := false;
  base_ref_name := "main"; reviews := []; comments := [];
  commits := [ {| check_suites := [] |} ] |}.

(** Open and ready under "merge after tests"; the first check suite has two
    stale check runs, the second a running one and a fresh one. *)
Definition ready_with_stale_checks : PullRequest := {|
  id := "PR_kwDOA8"; number := 14;
  repository_owner_handle := "acme"; repository_name := "app";
  author_handle := "alice"; title := "Add retry"; body := "Retries twice.";
  labels := [value AFTER_TESTS];
  closed := false; merged := false; merged_at := None;
  mergeable := MERGEABLE; is_build_successful := true; is_approved := false;
  base_ref_name := "main"; reviews := []; comments := [];
  commits :=
    [ {| check_suites :=
           [ {| check_runs :=
                  [ {| database_id := 501; completed_at := Some (timedelta_hours 900) |};
                    {| database_id := 502; completed_at := Some (timedelta_hours 901) |} ] |};
             {| check_runs :=
                  [ {| database_id := 503; completed_at := None |};
                    {| database_id := 504; completed_at := Some (timedelta_hours 995) |} ] |} ] |} ] |}.

(** Open, labelled "merge after approval", not approved, no comment yet; and
    the same pull request fetched after the warning was posted. *)
Definition awaiting_approval : PullRequest := {|
  id := "PR_kwDOA9"; number := 15;
  repository_owner_handle := "acme"; repository_name := "app";
  author_handle := "alice"; title := "Add retry"; body := "Retries twice.";
  labels := [value AFTER_APPROVAL];
  closed := false; merged := false; merged_at := None;
  mergeable := MERGEABLE; is_build_successful := true; is_approved := false;
  base_ref_name := "main"; reviews := []; comments := [];
  commits := [ {| check_suites := [] |} ] |}.

Definition warning_posted : Comment := {|
  comment_author := {| login := "sgtm-bot" |};
  comment_body := AUTOMERGE_COMMENT_WARNING_AFTER_APPROVAL;
  published_at := timedelta_hours 1000 |}.

Definition awaiting_approval_warned : PullRequest :=
  set_comments awaiting_approval [warning_posted].

(** ** Further notions *)

Definition set_commits (pr : PullRequest) (cs : list Commit) : PullRequest :=
  {| id := id pr; number := number pr;
     repository_owner_handle := repository_owner_handle pr;
     repository_name := repository_name pr; author_handle := author_handle pr;
     title := title pr; body := body pr; labels := labels pr;
     closed := closed pr; merged := merged pr; merged_at := merged_at pr;
     mergeable := mergeable pr; is_build_successful := is_build_successful pr;
     is_approved := is_approved pr; base_ref_name := base_ref_name pr;
     reviews := reviews pr; comments := comments pr; commits := cs |}.

Definition set_review_state (s : ReviewState) (r : Review) : Review :=
  {| review_author := review_author r; review_body := review_body r;
     submitted_at := submitted_at r; review_state := s |}.

(** A review counts before a merge at [t]: an approval or a request for
    changes, submitted strictly before [t]. *)
Definition qualifies_before (t : datetime) (r : Review) : Prop :=
  (review_state r = APPROVED_REVIEW \/ review_state r = CHANGES_REQUESTED)
  /\ submitted_at r < t.

#[global] Instance qualifies_before_dec t r : Decision (qualifies_before t r).
Proof. unfold qualifies_before. apply _. Defined.

(** The answer of the client to a call that rerequests a check run, after
    the calls [t]; and whether one of the calls [calls], issued in this
    order after [t], was answered with [True]. *)
Definition reply_to (rerequest_reply : list Call -> string -> string -> Z -> bool)
    (t : list Call) (c : Call) : bool :=
  match c with
  | RerequestCheckRun owner repo check_run_id =>
    rerequest_reply t owner repo check_run_id
  | _ => false
  end.

Fixpoint answered (rerequest_reply : list Call -> string -> string -> Z -> bool)
    (t : list Call) (calls : list Call) : bool :=
  match calls with
  | [] => false
  | c :: calls' =>
    reply_to rerequest_reply t c || answered rerequest_reply (t ++ [c]) calls'
  end.

(** A check suite with a stale check run. *)
Definition has_stale (freshness_boundary : datetime) (suite : CheckSuite) : Prop :=
  Exists (stale freshness_boundary) (check_runs suite).

#[global] Instance stale_dec fb r : Decision (stale fb r).
Proof.
  unfold stale. destruct (completed_at r) as [tc|].
  - destruct (decide (tc < fb)) as [H|H].
    + left. by exists tc.
    + right. intros (tc' & [= <-] & H'). by apply H.
  - right. by intros (tc' & [=] & _).
Defined.

#[global] Instance has_stale_dec fb suite : Decision (has_stale fb suite).
Proof. unfold has_stale. apply _. Defined.

(** Whether the pull request carries one of the four automerge labels. *)
Definition has_automerge_label (pr : PullRequest) : Prop :=
  exists l, value l ∈ labels pr.

(** The texts a sequence of items matches. *)
Fixpoint expansions (items : list re_item) : list string :=
  match items with
  | [] => [""]
  | Lit p :: rest => String.append p <$> expansions rest
  | OptSpace :: rest =>
    (w ← whitespace; String.append w <$> expansions rest) ++ expansions rest
  end.

(** The approval phrases: lower-case text that marks an approval wherever it
    occurs.  "ship it" may be written with any white-space character, or
    none, between the two words. *)
Definition approval_phrases : list string :=
  [ "sgtm"; "lgtm"; "sounds good"; "sound good"; "looks good"; "look good";
    "looks great"; "look great"; "+1" ]
  ++ ((fun w => "ship" +:+ w +:+ "it") <$> whitespace)
  ++ [ "shipit"; utf8_encode 128077; utf8_encode 128674 ].

(** Every character of [s] satisfies [p]; the number of characters [c] in
    [s]. *)
Fixpoint all_chars (p : ascii -> bool) (s : string) : bool :=
  match s with
  | EmptyString => true
  | String a s' => p a && all_chars p s'
  end.

Fixpoint count_char (c : ascii) (s : string) : nat :=
  match s with
  | EmptyString => 0%nat
  | String a s' => ((if bool_decide (a = c) then 1 else 0) + count_char c s')%nat
  end.

(** No non-ASCII character counts as a word character: enough for texts in
    ASCII. *)
Definition no_unicode_word : string -> bool := fun _ => false.

(** Every [@] of [s] stands behind an ASCII word character; [prev] is the
    character in front of [s], if any. *)
Fixpoint ats_follow_word (prev : option ascii) (s : string) : bool :=
  match s with
  | EmptyString => true
  | String c s' =>
    (if bool_decide (c = "@"%char)
     then match prev with
          | Some p => is_ascii_word_char p
          | None => false
          end
     else true)
    && ats_follow_word (Some c) s'
  end.

#[global] Instance User_eq_dec : EqDecision User.
Proof. solve_decision. Defined.
#[global] Instance Review_eq_dec : EqDecision Review.
Proof. solve_decision. Defined.
#[global] Instance Comment_eq_dec : EqDecision Comment.
Proof. solve_decision. Defined.

(** ** Further concrete snapshots *)

Definition config_without_followup : Config := {|
  SGTM_FEATURE__AUTOMERGE_ENABLED := true;
  SGTM_FEATURE__FOLLOWUP_REVIEW_GITHUB_USERS := ∅;
  SGTM_FEATURE__CHECK_RERUN_THRESHOLD_HOURS := 12;
  SGTM_FEATURE__CHECK_RERUN_BASE_REF_NAMES := ["main"; "master"];
  SGTM_FEATURE__CHECK_RERUN_ON_APPROVAL_ENABLED := true |}.

Definition approval_by_bob : Review := {|
  review_author := {| login := "bob" |}; review_body := "fine";
  submitted_at := 50; review_state := APPROVED_REVIEW |}.

Definition approval_by_followup : Review := {|
  review_author := {| login := "followup-bot" |}; review_body := "";
  submitted_at := 80; review_state := APPROVED_REVIEW |}.

Definition changes_by_carol_after_merge : Review := {|
  review_author := {| login := "carol" |}; review_body := "wait";
  submitted_at := 120; review_state := CHANGES_REQUESTED |}.

Definition changes_by_dave : Review := {|
  review_author := {| login := "dave" |}; review_body := "no";
  submitted_at := 90; review_state := CHANGES_REQUESTED |}.

(** Merged at 100 with the approval of the follow-up reviewer only. *)
Definition approved_by_followup_alone : PullRequest :=
  set_reviews merged_after_followup_approval [approval_by_followup].

(** Merged at 100 after an approval at 50 and a request for changes at 90. *)
Definition changes_requested_last : PullRequest :=
  set_reviews merged_after_followup_approval [approval_by_bob; changes_by_dave].

Definition comment_before_merge : Comment := {|
  comment_author := {| login := "bob" |}; comment_body := "lgtm";
  published_at := 90 |}.

Definition comment_by_author : Comment := {|
  comment_author := {| login := "alice" |}; comment_body := "+1";
  published_at := 110 |}.

Definition comment_by_bob : Comment := {|
  comment_author := {| login := "bob" |}; comment_body := "Ship it";
  published_at := 130 |}.

(** The checks of [ready_with_stale_checks] after they ran again. *)
Definition fresh_commit : Commit := {|
  check_suites :=
    [ {| check_runs :=
           [ {| database_id := 601; completed_at := Some (timedelta_hours 999) |};
             {| database_id := 602; completed_at := None |} ] |} ] |}.

Definition ready_with_fresh_checks : PullRequest :=
  set_commits ready_with_stale_checks [fresh_commit].

(** * Properties *)

(** ** The monad *)

Lemma run_bind {A B} (m : M A) (f : A -> M B) (t : list Call) :
  run (m ≫= f) t =
  match run m t with
  | (Return a, t') => run (f a) t'
  | (Raise e, t') => (Raise e, t')
  end.
Proof. reflexivity. Qed.

Lemma run_ret {A} (a : A) (t : list Call) : run (mret a) t = (Return a, t).
Proof. reflexivity. Qed.

(** ** Python lists *)

Lemma getitem_last {A} (l : list A) :
  getitem l (-1) = match last l with Some x => Return x | None => Raise IndexError end.
Proof.
  unfold getitem. destruct (last l) as [x|] eqn:E.
  - apply last_Some in E as [l' ->].
    rewrite length_app. simpl.
    rewrite bool_decide_eq_true_2 by lia.
    replace (Z.to_nat _) with (length l') by lia.
    by rewrite list_lookup_middle.
  - apply last_None in E as ->. reflexivity.
Qed.

Lemma getitem_0 {A} (l : list A) :
  getitem l 0 = match l with x :: _ => Return x | [] => Raise IndexError end.
Proof.
  unfold getitem. destruct l as [|x l]; [reflexivity|].
  rewrite (bool_decide_eq_false_2 (0 < 0)) by lia.
  rewrite bool_decide_eq_true_2 by (simpl length; lia). reflexivity.
Qed.

(** [sorted] is the stable ascending sort, and there is no other. *)
Section SortedFacts.
Context {A : Type} (key : A -> Z).

Local Abbreviation le_key := (fun x y : A => key x <= key y).
Local Abbreviation with_key k := (fun x : A => key x = k).

Lemma insert_by_key_elem_of x y l :
  y ∈ insert_by_key key x l <-> y = x \/ y ∈ l.
Proof.
  induction l as [|z l IHl]; simpl.
  - rewrite list_elem_of_singleton, elem_of_nil. tauto.
  - case_bool_decide.
    + by rewrite elem_of_cons.
    + rewrite !elem_of_cons, IHl. tauto.
Qed.

Lemma insert_by_key_sorted x l :
  StronglySorted le_key l -> StronglySorted le_key (insert_by_key key x l).
Proof.
  induction 1 as [|z l Hl IH Hz]; simpl.
  - repeat constructor.
  - case_bool_decide as Hxz.
    + constructor; [by constructor|]. constructor; [done|].
      eapply Forall_impl; [exact Hz|]. simpl. intros. lia.
    + constructor; [done|]. apply Forall_forall. intros y Hy.
      apply insert_by_key_elem_of in Hy as [->|Hy]; [lia|].
      by eapply Forall_forall in Hz.
Qed.

Lemma insert_by_key_filter k x l :
  filter (with_key k) (insert_by_key key x l) = filter (with_key k) (x :: l).
Proof.
  induction l as [|z l IH]; simpl; [done|].
  case_bool_decide as Hxz; [done|].
  rewrite (filter_cons _ z), IH, !(filter_cons _ x), (filter_cons _ z).
  destruct (decide (key z = k)), (decide (key x = k)); try done. lia.
Qed.

Lemma sorted_stable_sort_of l : stable_sort_of key l (sorted key l).
Proof.
  split.
  - induction l as [|x l IH]; simpl; [constructor|].
    by apply insert_by_key_sorted.
  - intros k. induction l as [|x l IH]; simpl; [done|].
    by rewrite insert_by_key_filter, !(filter_cons _ x), IH.
Qed.

Lemma stable_sort_unique (s1 s2 : list A) :
  StronglySorted le_key s1 -> StronglySorted le_key s2 ->
  (forall k, filter (with_key k) s1 = filter (with_key k) s2) ->
  s1 = s2.
Proof.
  intros H1. revert s2. induction H1 as [|x s1 Hs1 IH Hx]; intros s2 H2 Hf.
  - destruct s2 as [|y s2]; [done|].
    specialize (Hf (key y)). by rewrite filter_cons_True in Hf.
  - destruct H2 as [|y s2 Hs2 Hy].
    { specialize (Hf (key x)). by rewrite filter_cons_True in Hf. }
    assert (key x <= key y) as Hxy.
    { assert (y ∈ filter (with_key (key y)) (x :: s1)) as Hin.
      { rewrite Hf, filter_cons_True by done. left. }
      apply list_elem_of_filter in Hin as [_ Hin].
      apply elem_of_cons in Hin as [->|Hin]; [lia|].
      by eapply Forall_forall in Hx. }
    assert (key y <= key x) as Hyx.
    { assert (x ∈ filter (with_key (key x)) (y :: s2)) as Hin.
      { rewrite <- Hf, filter_cons_True by done. left. }
      apply list_elem_of_filter in Hin as [_ Hin].
      apply elem_of_cons in Hin as [->|Hin]; [lia|].
      by eapply Forall_forall in Hy. }
    assert (key x = key y) as Hk by lia.
    pose proof (Hf (key x)) as Hfx.
    rewrite !filter_cons_True in Hfx by done.
    injection Hfx as -> Hfx. f_equal. apply IH; [done|].
    intros k. destruct (decide (key y = k)) as [<-|Hne]; [done|].
    specialize (Hf k). by rewrite !filter_cons_False in Hf.
Qed.

Lemma stable_sort_of_sorted l s : stable_sort_of key l s -> s = sorted key l.
Proof.
  intros [Hs Hf]. destruct (sorted_stable_sort_of l) as [Hs' Hf'].
  apply stable_sort_unique; [done..|]. intros k. by rewrite Hf, Hf'.
Qed.
End SortedFacts.

(** ** Approval before merging *)

Section BeforeMerging.
Variable cfg : Config.

Local Abbreviation approved_before := (pull_request_approved_before_merging cfg).

Lemma is_approval_or_changes_requested_iff r :
  is_approval_or_changes_requested r
  <-> review_state r = APPROVED_REVIEW \/ review_state r = CHANGES_REQUESTED.
Proof.
  unfold is_approval_or_changes_requested.
  rewrite orb_True, !bool_decide_spec. done.
Qed.

Lemma premerge_reviews_eq pr t :
  sorted submitted_at
    (filter (fun review => is_approval_or_changes_requested review
                           /\ submitted_at review < t) (reviews pr))
  = premerge_reviews_reference pr t.
Proof.
  unfold premerge_reviews_reference. f_equal.
  apply list_filter_iff. intros r. by rewrite is_approval_or_changes_requested_iff.
Qed.

(** C2.  On a merged pull request with a known time of merge the function
    returns what the procedure of the specification returns, and the list
    that procedure inspects is the list of the qualifying reviews in
    ascending order of submission, ties in the order of the snapshot. *)
Theorem approved_before_merging_refines_reference (pr : PullRequest) (t : datetime) :
  merged pr = true ->
  merged_at pr = Some t ->
  approved_before pr = Return (approved_before_merging_reference cfg pr t)
  /\ stable_sort_of submitted_at
       (filter (fun r => (review_state r = APPROVED_REVIEW
                          \/ review_state r = CHANGES_REQUESTED)
                         /\ submitted_at r < t)
               (reviews pr))
       (premerge_reviews_reference pr t).
Proof.
  intros Hm Ht. split; [|apply sorted_stable_sort_of].
  unfold pull_request_approved_before_merging.
  rewrite Hm, Ht. simpl. rewrite premerge_reviews_eq.
  unfold approved_before_merging_reference.
  set (premerge := premerge_reviews_reference pr t).
  rewrite !getitem_last.
  destruct (last premerge) as [latest|] eqn:Hlast.
  2:{ apply last_None in Hlast. by rewrite Hlast. }
  rewrite bool_decide_eq_false_2.
  2:{ intros Hlen%length_zero_iff_nil. by rewrite Hlen in Hlast. }
  simpl. unfold is_approval.
  destruct (decide (review_state latest = APPROVED_REVIEW)) as [Happ|Happ].
  2:{ by rewrite bool_decide_eq_false_2. }
  rewrite bool_decide_eq_true_2 by done. simpl.
  destruct (decide (needs_followup cfg (login (review_author latest)))) as [Hf|Hf].
  2:{ by rewrite bool_decide_eq_false_2. }
  rewrite bool_decide_eq_true_2 by done.
  destruct (last (filter _ premerge)) as [r|] eqn:Hlast'.
  2:{ apply last_None in Hlast'. by rewrite Hlast'. }
  rewrite bool_decide_eq_false_2.
  2:{ intros Hlen%length_zero_iff_nil. by rewrite Hlen in Hlast'. }
  simpl.
  destruct (decide (review_state r = APPROVED_REVIEW)) as [Hr|Hr].
  - by rewrite bool_decide_eq_true_2.
  - by rewrite bool_decide_eq_false_2.
Qed.

(** C7.  A pull request that is not merged trips the assertion; a merged
    one whose time of merge is unknown is reported as not approved. *)
Theorem approved_before_merging_fails_fast (pr : PullRequest) :
  (merged pr = false ->
     approved_before pr
     = Raise (AssertionError "Checked for pre-merge approval on a non-merged PR"))
  /\ (merged pr = true -> merged_at pr = None -> approved_before pr = Return NO).
Proof.
  unfold pull_request_approved_before_merging. split.
  - intros ->. reflexivity.
  - intros -> ->. reflexivity.
Qed.

End BeforeMerging.

Lemma approved_before_merging_refines_reference_witness :
  pull_request_approved_before_merging example_config merged_after_followup_approval
  = Return APPROVED.
Proof.
  apply (fun Hm Ht => proj1 (approved_before_merging_refines_reference example_config
                               merged_after_followup_approval 100 Hm Ht));
    reflexivity.
Defined.

Lemma approved_before_merging_fails_fast_witness :
  pull_request_approved_before_merging example_config open_pull_request
  = Raise (AssertionError "Checked for pre-merge approval on a non-merged PR")
  /\ pull_request_approved_before_merging example_config merged_at_unknown = Return NO.
Proof.
  split.
  - apply (proj1 (approved_before_merging_fails_fast example_config open_pull_request)).
    reflexivity.
  - apply (proj2 (approved_before_merging_fails_fast example_config merged_at_unknown));
      reflexivity.
Defined.

(** ** Approval after merging *)

Section AfterMerging.
Variable cfg : Config.
Variable str_lower : string -> string.

Local Abbreviation approved_after := (pull_request_approved_after_merging cfg str_lower).
Local Abbreviation marker := (_is_approval_comment_body str_lower).

Lemma filter_nonempty_iff {A} (P : A -> Prop) `{!forall x, Decision (P x)}
    (l : list A) (D : Decision (filter P l = [])) :
  negb (@bool_decide _ D) = true <-> exists x, x ∈ l /\ P x.
Proof.
  rewrite negb_true_iff, bool_decide_eq_false. split.
  - intros Hne. destruct (filter P l) as [|x l'] eqn:E; [done|].
    exists x. apply and_comm, (list_elem_of_filter P l). rewrite E. left.
  - intros (x & Hx & HP) E.
    eapply filter_nil_not_elem_of; eauto.
Qed.

Lemma approved_after_iff pr t :
  merged_at pr = Some t ->
  approved_after pr = true <-> marker_among_qualifying cfg str_lower pr t.
Proof.
  intros Ht. unfold pull_request_approved_after_merging, marker_among_qualifying.
  rewrite Ht, filter_nonempty_iff. split.
  - intros (b & Hb & Hm). apply Is_true_true in Hm.
    apply elem_of_app in Hb as [Hb|Hb];
      apply list_elem_of_fmap in Hb as (x & -> & Hx);
      apply list_elem_of_filter in Hx as [HP Hx].
    + left. exists x. split; [|done].
      destruct HP as (H1 & H2 & H3). by repeat split.
    + right. exists x. split; [|done].
      destruct HP as (H1 & H2). by repeat split.
  - intros [(c & (Hc & H1 & H2 & H3) & Hm)|(r & (Hr & H1 & H2) & Hm)].
    + exists (comment_body c). split; [|by apply Is_true_true].
      apply elem_of_app. left. apply list_elem_of_fmap. exists c. split; [done|].
      apply list_elem_of_filter. by repeat split.
    + exists (review_body r). split; [|by apply Is_true_true].
      apply elem_of_app. right. apply list_elem_of_fmap. exists r. split; [done|].
      apply list_elem_of_filter. by repeat split.
Qed.

(** C8.  Without a known time of merge the pull request is not approved
    after merging; with one, it is approved exactly when the body of some
    qualifying post-merge comment or review is an approval marker, and
    not approved exactly when none is, however many post-merge comments
    there are. *)
Theorem approved_after_merging_iff_marker (pr : PullRequest) :
  (merged_at pr = None -> approved_after pr = false)
  /\ (forall t, merged_at pr = Some t ->
        (approved_after pr = true <-> marker_among_qualifying cfg str_lower pr t)
        /\ (approved_after pr = false <-> ~ marker_among_qualifying cfg str_lower pr t)).
Proof.
  split.
  - intros Hn. unfold pull_request_approved_after_merging. by rewrite Hn.
  - intros t Ht. split; [by apply approved_after_iff|].
    rewrite <- (approved_after_iff pr t Ht). symmetry. apply not_true_iff_false.
Qed.

(** Dropping what the filters reject does not change the verdict. *)
Lemma filter_filter_sub {A} (P Q : A -> Prop) `{!forall x, Decision (P x)}
    `{!forall x, Decision (Q x)} (l : list A) :
  (forall x, P x -> Q x) -> filter P (filter Q l) = filter P l.
Proof.
  intros HPQ. induction l as [|x l IH]; [done|].
  rewrite (filter_cons Q). destruct (decide (Q x)) as [HQ|HQ].
  - rewrite !(filter_cons P). destruct (decide (P x)); by rewrite IH.
  - rewrite (filter_cons_False P x l); [done|]. intros HP. by apply HQ, HPQ.
Qed.

Lemma approved_after_without_ignored pr :
  approved_after (without_ignored cfg pr) = approved_after pr.
Proof.
  unfold pull_request_approved_after_merging, without_ignored. simpl.
  destruct (merged_at pr) as [t|]; [|done].
  rewrite !filter_filter_sub; [done| |].
  - intros r [_ H]. exact H.
  - intros c (_ & H1 & H2) [H|H]; [by apply H1|by apply H2].
Qed.

(** C3, as the code has it.  A comment written by the author of the pull
    request or by a follow-up handle, and a review written by a follow-up
    handle, contribute nothing: the verdict is that of the snapshot
    without them, whatever their bodies say.  (A review written by the
    author of the pull request is not among the ignored.) *)
Theorem approved_after_merging_ignores (pr : PullRequest) :
  approved_after pr = approved_after (without_ignored cfg pr)
  /\ (forall cs1 c cs2, comments pr = cs1 ++ c :: cs2 -> ignored_comment cfg pr c ->
        approved_after pr = approved_after (set_comments pr (cs1 ++ cs2)))
  /\ (forall rs1 r rs2, reviews pr = rs1 ++ r :: rs2 -> ignored_review cfg r ->
        approved_after pr = approved_after (set_reviews pr (rs1 ++ rs2))).
Proof.
  split; [by rewrite approved_after_without_ignored|]. split.
  - intros cs1 c cs2 Hcs Hc.
    unfold pull_request_approved_after_merging. simpl.
    destruct (merged_at pr) as [t|]; [|done].
    rewrite Hcs, !filter_app, filter_cons_False; [done|].
    intros (_ & H1 & H2). destruct Hc as [H|H]; [by apply H1|by apply H2].
  - intros rs1 r rs2 Hrs Hr.
    unfold pull_request_approved_after_merging. simpl.
    destruct (merged_at pr) as [t|]; [|done].
    rewrite Hrs, !filter_app, filter_cons_False; [done|].
    intros (_ & H). by apply H.
Qed.

End AfterMerging.

(** C3, as stated, fails: a review that the author of the pull request
    submits after the merge and that reads "LGTM" makes the pull request
    approved after merging, while the snapshot without the comments and
    reviews of the author and of the follow-up handles is not. *)
Lemma approved_after_merging_counts_review_by_author :
  pull_request_approved_after_merging example_config ascii_lower
    self_reviewed_after_merge = true
  /\ pull_request_approved_after_merging example_config ascii_lower
       (without_author_and_followup example_config self_reviewed_after_merge) = false
  /\ Forall (ignored_review_or_by_author example_config self_reviewed_after_merge)
            (reviews self_reviewed_after_merge).
Proof.
  split; [by vm_compute|]. split; [by vm_compute|].
  repeat constructor.
Qed.

Lemma approved_after_merging_ignores_witness :
  pull_request_approved_after_merging example_config ascii_lower
    approved_by_comment_after_merge
  = pull_request_approved_after_merging example_config ascii_lower
      (set_comments approved_by_comment_after_merge
         [ {| comment_author := {| login := "bob" |};
              comment_body := "Ship it"; published_at := 130 |} ])
  /\ pull_request_approved_after_merging example_config ascii_lower
       approved_by_comment_after_merge
     = pull_request_approved_after_merging example_config ascii_lower
         (set_reviews approved_by_comment_after_merge []).
Proof.
  split.
  - apply (proj1 (proj2 (approved_after_merging_ignores example_config ascii_lower
                           approved_by_comment_after_merge)) []
             {| comment_author := {| login := "alice" |};
                comment_body := "+1"; published_at := 110 |}
             [ {| comment_author := {| login := "bob" |};
                  comment_body := "Ship it"; published_at := 130 |} ]);
      [reflexivity | left; reflexivity].
  - apply (proj2 (proj2 (approved_after_merging_ignores example_config ascii_lower
                           approved_by_comment_after_merge)) []
             {| review_author := {| login := "followup-bot" |};
                review_body := "looks good"; submitted_at := 120;
                review_state := APPROVED_REVIEW |} []);
      [reflexivity | by vm_compute].
Defined.

Lemma approved_after_merging_iff_marker_witness :
  pull_request_approved_after_merging example_config ascii_lower merged_at_unknown = false
  /\ (pull_request_approved_after_merging example_config ascii_lower
        approved_by_comment_after_merge = true
      <-> marker_among_qualifying example_config ascii_lower
            approved_by_comment_after_merge 100).
Proof.
  split.
  - apply (proj1 (approved_after_merging_iff_marker example_config ascii_lower
                    merged_at_unknown)). reflexivity.
  - apply (proj2 (approved_after_merging_iff_marker example_config ascii_lower
                    approved_by_comment_after_merge) 100). reflexivity.
Defined.

(** ** The stale-check scan *)

Lemma calls_issued_app {A} (m : M A) (t new : list Call) :
  snd (run m t) = t ++ new -> calls_issued m t = new.
Proof. unfold calls_issued. intros ->. by rewrite drop_app_length. Qed.

Lemma is_check_run_stale_iff fb r : is_check_run_stale fb r = true <-> stale fb r.
Proof.
  unfold is_check_run_stale, stale. destruct (completed_at r) as [tc|].
  - rewrite bool_decide_eq_true. split; [by exists tc|].
    intros (tc' & [= <-] & H). done.
  - split; [done|]. by intros (tc' & [=] & _).
Qed.

Section Scan.
Variable cfg : Config.
Variable now : datetime.
Variable rerequest_reply : list Call -> string -> string -> Z -> bool.

Local Abbreviation scan_runs := (scan_check_runs rerequest_reply).
Local Abbreviation scan_suites := (scan_check_suites rerequest_reply).
Local Abbreviation rerun_stale_checks := (_maybe_rerun_stale_checks cfg now rerequest_reply).

Lemma scan_check_runs_spec pr fb runs did_rerun t :
  exists o b,
    suite_rerun fb runs o
    /\ run (scan_runs pr fb runs did_rerun) t
       = (Return b, t ++ (rerun_call pr <$> option_list o))
    /\ (o = None -> b = did_rerun).
Proof.
  induction runs as [|r runs IH]; simpl.
  - exists None, did_rerun. split; [by constructor|]. by rewrite app_nil_r.
  - destruct (is_check_run_stale fb r) eqn:Hr.
    + exists (Some r). eexists. split; [|split; [reflexivity|done]].
      apply (suite_rerun_first fb [] r runs); [constructor|].
      by apply is_check_run_stale_iff.
    + destruct IH as (o & b & Ho & Hrun & Hb). exists o, b.
      split; [|done].
      assert (~ stale fb r) as Hns.
      { rewrite <- is_check_run_stale_iff, Hr. done. }
      destruct Ho as [runs Hnone|earlier r' later Hearlier Hstale].
      * constructor. by constructor.
      * apply (suite_rerun_first fb (r :: earlier)); [by constructor|done].
Qed.

Lemma scan_check_suites_spec pr fb suites did_rerun t :
  exists (chosen : list (option CheckRun)) b,
    Forall2 (fun suite o => suite_rerun fb (check_runs suite) o) suites chosen
    /\ run (scan_suites pr fb suites did_rerun) t
       = (Return b, t ++ (rerun_call pr <$> concat (option_list <$> chosen)))
    /\ (Forall (fun o => o = None) chosen -> b = did_rerun).
Proof.
  revert did_rerun t. induction suites as [|suite suites IH]; intros did_rerun t.
  - exists [], did_rerun. split; [constructor|]. simpl. by rewrite app_nil_r.
  - simpl.
    destruct (scan_check_runs_spec pr fb (check_runs suite) did_rerun t)
      as (o & b & Ho & Hrun & Hb).
    rewrite Hrun.
    destruct (IH b (t ++ (rerun_call pr <$> option_list o)))
      as (chosen & b' & Hchosen & Hrun' & Hb').
    exists (o :: chosen), b'. split; [by constructor|]. split.
    + rewrite Hrun'. simpl. by rewrite fmap_app, app_assoc.
    + intros Hall. apply Forall_cons in Hall as [Ho' Hall].
      rewrite Hb' by done. by apply Hb.
Qed.

Lemma rerun_stale_checks_unfold pr t :
  run (rerun_stale_checks pr) t
  = if decide (base_ref_name pr ∈ SGTM_FEATURE__CHECK_RERUN_BASE_REF_NAMES cfg
               /\ 0 < SGTM_FEATURE__CHECK_RERUN_THRESHOLD_HOURS cfg)
    then
      if decide (freshness_date_representable cfg now) then
        match commits pr with
        | [] => (Raise IndexError, t)
        | first_commit :: _ =>
          run (scan_suites pr (freshness_boundary cfg now)
                 (check_suites first_commit) false) t
        end
      else (Raise OverflowError, t)
    else (Return false, t).
Proof.
  unfold _maybe_rerun_stale_checks.
  case_bool_decide as Hbase; [by rewrite decide_False by tauto|].
  case_bool_decide as Hthr; [by rewrite decide_False by lia|].
  rewrite decide_True by (split; [done|lia]).
  unfold freshness_date_representable, freshness_boundary, timedelta, datetime_sub, lift.
  rewrite !run_bind. simpl run at 1.
  destruct (decide (timedelta_representable
                      (timedelta_hours (SGTM_FEATURE__CHECK_RERUN_THRESHOLD_HOURS cfg))))
    as [Hd|Hd].
  2:{ rewrite bool_decide_eq_false_2 by done. by rewrite decide_False by tauto. }
  rewrite bool_decide_eq_true_2 by done. rewrite !run_bind. simpl run at 1.
  destruct (decide (datetime_representable
                      (now - timedelta_hours
                               (SGTM_FEATURE__CHECK_RERUN_THRESHOLD_HOURS cfg))))
    as [Hf|Hf].
  2:{ rewrite bool_decide_eq_false_2 by done. by rewrite decide_False by tauto. }
  rewrite bool_decide_eq_true_2 by done. rewrite decide_True by done.
  rewrite run_bind. simpl run at 1. rewrite getitem_0.
  by destruct (commits pr).
Qed.

Lemma maybe_rerun_stale_checks_spec pr t :
  (exists (chosen : list (option CheckRun)) b,
     Forall2 (fun suite o => suite_rerun (freshness_boundary cfg now) (check_runs suite) o)
             (scanned_suites cfg now pr) chosen
     /\ run (rerun_stale_checks pr) t
        = (Return b, t ++ (rerun_call pr <$> concat (option_list <$> chosen)))
     /\ (Forall (fun o => o = None) chosen -> b = false))
  \/ (exists e,
        run (rerun_stale_checks pr) t = (Raise e, t)
        /\ scanned_suites cfg now pr = []
        /\ base_ref_name pr ∈ SGTM_FEATURE__CHECK_RERUN_BASE_REF_NAMES cfg
        /\ 0 < SGTM_FEATURE__CHECK_RERUN_THRESHOLD_HOURS cfg
        /\ (e = OverflowError /\ ~ freshness_date_representable cfg now
            \/ e = IndexError /\ freshness_date_representable cfg now
               /\ commits pr = [])).
Proof.
  rewrite rerun_stale_checks_unfold. unfold scanned_suites.
  destruct (decide (base_ref_name pr ∈ SGTM_FEATURE__CHECK_RERUN_BASE_REF_NAMES cfg
                    /\ 0 < SGTM_FEATURE__CHECK_RERUN_THRESHOLD_HOURS cfg))
    as [[Hbase Hthr]|Hoff].
  2:{ left. exists [], false. rewrite decide_False by tauto.
      split; [constructor|]. simpl. by rewrite app_nil_r. }
  destruct (decide (freshness_date_representable cfg now)) as [Hrep|Hrep].
  2:{ right. exists OverflowError. rewrite decide_False by tauto.
      repeat split; try done. by left. }
  rewrite decide_True by done.
  destruct (commits pr) as [|first_commit rest].
  - right. exists IndexError. repeat split; try done. by right.
  - left. apply scan_check_suites_spec.
Qed.

(** The scan only ever issues rerequests of check runs. *)
Lemma maybe_rerun_stale_checks_calls pr t :
  exists o reruns,
    run (rerun_stale_checks pr) t = (o, t ++ (rerun_call pr <$> reruns)).
Proof.
  destruct (maybe_rerun_stale_checks_spec pr t)
    as [(chosen & b & _ & Hrun & _)|(e & Hrun & _)].
  - by eexists _, _.
  - exists (Raise e), []. simpl. by rewrite app_nil_r.
Qed.

(** C5.  In a call of the scan every check suite gone through has at most
    one of its check runs rerun, namely its first stale one; a check run
    is stale exactly when it has completed, strictly before the clock
    minus the configured number of hours; so a check run that has not
    completed is not rerun. *)
Theorem rerun_scan_one_per_suite (pr : PullRequest) (t : list Call) :
  (exists per_suite : list (option CheckRun),
     Forall2 (fun suite o =>
                suite_rerun (freshness_boundary cfg now) (check_runs suite) o
                /\ (length (option_list o) <= 1)%nat)
             (scanned_suites cfg now pr) per_suite
     /\ calls_issued (rerun_stale_checks pr) t
        = rerun_call pr <$> concat (option_list <$> per_suite)
     /\ Forall (fun r => exists tc, completed_at r = Some tc
                                    /\ tc < now - timedelta_hours
                                              (SGTM_FEATURE__CHECK_RERUN_THRESHOLD_HOURS cfg))
               (concat (option_list <$> per_suite)))
  /\ (forall r, is_check_run_stale (freshness_boundary cfg now) r = true
                <-> exists tc, completed_at r = Some tc
                               /\ tc < now - timedelta_hours
                                         (SGTM_FEATURE__CHECK_RERUN_THRESHOLD_HOURS cfg)).
Proof.
  split; [|intros r; apply is_check_run_stale_iff].
  assert (forall suites chosen,
            Forall2 (fun suite o =>
                       suite_rerun (freshness_boundary cfg now) (check_runs suite) o)
                    suites chosen ->
            Forall2 (fun suite o =>
                       suite_rerun (freshness_boundary cfg now) (check_runs suite) o
                       /\ (length (option_list o) <= 1)%nat) suites chosen
            /\ Forall (stale (freshness_boundary cfg now))
                      (concat (option_list <$> chosen))) as Hshape.
  { induction 1 as [|suite o suites chosen Ho _ [IH1 IH2]]; [by split; constructor|].
    split.
    - constructor; [|done]. split; [done|]. destruct o; simpl; lia.
    - simpl. apply Forall_app. split; [|done].
      destruct Ho; simpl; repeat constructor. done. }
  destruct (maybe_rerun_stale_checks_spec pr t)
    as [(chosen & b & Hchosen & Hrun & _)|(e & Hrun & Hnone & _)].
  - exists chosen. destruct (Hshape _ _ Hchosen) as [H1 H2].
    split; [done|]. split; [|done].
    apply calls_issued_app. by rewrite Hrun.
  - exists []. rewrite Hnone.
    split; [constructor|]. split; [|constructor].
    apply calls_issued_app. rewrite Hrun. simpl. by rewrite app_nil_r.
Qed.

(** C10, as the code has it.  With no commit to look at, an allowed base
    ref and a positive threshold, the scan does not return: where the clock
    minus the threshold is a [datetime], indexing the first commit raises
    [IndexError]; where it is not, the subtraction has raised
    [OverflowError] before.  Nothing was called in either case. *)
Theorem rerun_stale_checks_no_commit_index_error (pr : PullRequest) (t : list Call) :
  commits pr = [] ->
  base_ref_name pr ∈ SGTM_FEATURE__CHECK_RERUN_BASE_REF_NAMES cfg ->
  0 < SGTM_FEATURE__CHECK_RERUN_THRESHOLD_HOURS cfg ->
  returned (rerun_stale_checks pr) t <> Return false
  /\ (freshness_date_representable cfg now ->
        run (rerun_stale_checks pr) t = (Raise IndexError, t))
  /\ (~ freshness_date_representable cfg now ->
        run (rerun_stale_checks pr) t = (Raise OverflowError, t)).
Proof.
  intros Hcommits Hbase Hthr. unfold returned.
  rewrite rerun_stale_checks_unfold, Hcommits, decide_True by done.
  destruct (decide (freshness_date_representable cfg now)); by repeat split.
Qed.

End Scan.

(** ** The warning comment *)

Section Warning.
Variable cfg : Config.

Local Abbreviation warn := (maybe_add_automerge_warning_comment cfg).

Lemma has_automerge_comment_false pr text :
  _pull_request_has_automerge_comment pr text = false
  <-> Forall (fun c => comment_body c <> text) (comments pr).
Proof.
  unfold _pull_request_has_automerge_comment.
  induction (comments pr) as [|c cs IH]; simpl.
  - split; [constructor|done].
  - rewrite orb_false_iff, IH, Forall_cons, bool_decide_eq_false. done.
Qed.

Lemma warn_run pr t :
  (warning_due cfg pr -> run (warn pr) t = (Return tt, t ++ [warning_call pr]))
  /\ (~ warning_due cfg pr -> run (warn pr) t = (Return tt, t)).
Proof.
  unfold maybe_add_automerge_warning_comment, warning_due, warning_call, warning_text,
    pull_request_has_label.
  destruct (SGTM_FEATURE__AUTOMERGE_ENABLED cfg); [|split; [by intros [[=] _]|done]].
  destruct (decide (value AFTER_TESTS_AND_APPROVAL ∈ labels pr)) as [Hata|Hata].
  - rewrite (bool_decide_eq_true_2 _ Hata). simpl orb.
    destruct (_pull_request_has_automerge_comment pr _) eqn:Hc; simpl.
    + split; [|done]. intros (_ & _ & _ & Hall).
      apply has_automerge_comment_false in Hall. congruence.
    + destruct (is_approved pr); simpl.
      * split; [by intros (_ & _ & [=] & _)|done].
      * split; [done|]. intros Hn. exfalso. apply Hn.
        repeat split; [by left|]. by apply has_automerge_comment_false.
  - rewrite (bool_decide_eq_false_2 _ Hata). simpl orb.
    destruct (decide (value AFTER_APPROVAL ∈ labels pr)) as [Haa|Haa].
    + rewrite (bool_decide_eq_true_2 _ Haa).
      destruct (_pull_request_has_automerge_comment pr _) eqn:Hc; simpl.
      * split; [|done]. intros (_ & _ & _ & Hall).
        apply has_automerge_comment_false in Hall. congruence.
      * destruct (is_approved pr); simpl.
        -- split; [by intros (_ & _ & [=] & _)|done].
        -- split; [done|]. intros Hn. exfalso. apply Hn.
           repeat split; [by right|]. by apply has_automerge_comment_false.
    + rewrite (bool_decide_eq_false_2 _ Haa). simpl.
      split; [|done]. intros (_ & [H|H] & _); done.
Qed.

Lemma classic_due pr : warning_due cfg pr \/ ~ warning_due cfg pr.
Proof.
  unfold warning_due.
  destruct (decide (SGTM_FEATURE__AUTOMERGE_ENABLED cfg = true
                    /\ (value AFTER_TESTS_AND_APPROVAL ∈ labels pr
                        \/ value AFTER_APPROVAL ∈ labels pr)
                    /\ is_approved pr = false
                    /\ Forall (fun c => comment_body c <> warning_text pr)
                              (comments pr))); [by left|by right].
Qed.

Lemma warn_calls pr t :
  (warning_due cfg pr -> calls_issued (warn pr) t = [warning_call pr])
  /\ (~ warning_due cfg pr -> calls_issued (warn pr) t = []).
Proof.
  destruct (warn_run pr t) as [H1 H2]. split; intros H; apply calls_issued_app.
  - by rewrite H1.
  - rewrite H2 by done. simpl. by rewrite app_nil_r.
Qed.

(** C6.  The warning is posted exactly when the feature is enabled, the
    pull request carries one of the two approval labels, it is not
    approved, and no comment has the warning text of its label tier as its
    body.  So nothing is posted on a snapshot that holds the warning
    already, and calling twice in succession, the second time on the
    snapshot fetched after the first call, posts at most one warning. *)
Theorem warning_comment_posted_once (pr : PullRequest) (t : list Call) :
  (warning_due cfg pr -> calls_issued (warn pr) t = [warning_call pr])
  /\ (~ warning_due cfg pr -> calls_issued (warn pr) t = [])
  /\ (forall c, c ∈ comments pr -> comment_body c = warning_text pr ->
        calls_issued (warn pr) t = [])
  /\ (forall pr', refetched_after (calls_issued (warn pr) t) pr pr' ->
        (length (calls_issued (warn pr) t
                 ++ calls_issued (warn pr') (snd (run (warn pr) t))) <= 1)%nat).
Proof.
  destruct (warn_calls pr t) as [Hdue Hnot].
  split; [done|]. split; [done|]. split.
  - intros c Hc Hbody. apply Hnot. intros (_ & _ & _ & Hall).
    by eapply Forall_forall in Hall.
  - intros pr' (Ho & Hr & Hn & Hl & Ha & Hsub & Hnew).
    assert (warning_text pr' = warning_text pr) as Htext.
    { unfold warning_text. by rewrite Hl. }
    destruct (warn_calls pr' (snd (run (warn pr) t))) as [Hdue' Hnot'].
    destruct (classic_due pr) as [Hd|Hd].
    + rewrite (Hdue Hd) in Hnew |- *.
      rewrite Hnot'; [simpl; lia|].
      intros (_ & _ & _ & Hall).
      destruct (Hnew (warning_text pr)) as (c & Hc & Hbody); [left|].
      eapply Forall_forall in Hall; [|exact Hc]. congruence.
    + rewrite (Hnot Hd). simpl.
      destruct (classic_due pr') as [Hd'|Hd'].
      * rewrite (Hdue' Hd'). simpl. lia.
      * rewrite (Hnot' Hd'). simpl. lia.
Qed.

End Warning.

(** ** Automerge *)

Section Automerge.
Variable cfg : Config.
Variable now : datetime.
Variable rerequest_reply : list Call -> string -> string -> Z -> bool.

Local Abbreviation automerge :=
  (maybe_automerge_pull_request_and_rerun_stale_checks cfg now rerequest_reply).
Local Abbreviation rerun_stale_checks := (_maybe_rerun_stale_checks cfg now rerequest_reply).
Local Abbreviation by_precedence := (automerge_by_precedence cfg now rerequest_reply).

(** C9.  The value passed for [did_rerun_stale_required_checks] is
    overwritten before it is read: the outcome and the calls issued are
    the same for [True] and for [False]. *)
Theorem automerge_ignores_did_rerun_argument (pr : PullRequest) (t : list Call) :
  run (automerge pr true) t = run (automerge pr false) t
  /\ returned (automerge pr true) t = returned (automerge pr false) t
  /\ calls_issued (automerge pr true) t = calls_issued (automerge pr false) t.
Proof. repeat split. Qed.

Lemma mergeable_in_iff pr :
  bool_decide (mergeable pr ∈ [MERGEABLE; UNKNOWN])
  = bool_decide (mergeable pr = MERGEABLE \/ mergeable pr = UNKNOWN).
Proof.
  apply bool_decide_ext. rewrite !elem_of_cons, elem_of_nil. tauto.
Qed.

(** The chain of [elif]s is a scan of the labels in the coded order. *)
Lemma automerge_by_coded_precedence pr arg t :
  run (automerge pr arg) t = run (by_precedence CODED_PRECEDENCE pr) t.
Proof.
  unfold maybe_automerge_pull_request_and_rerun_stale_checks,
    automerge_by_precedence, selected_label, CODED_PRECEDENCE,
    _pull_request_is_open, pull_request_has_label, merge_pull_request, merge_call.
  destruct (SGTM_FEATURE__AUTOMERGE_ENABLED cfg), (closed pr), (merged pr);
    try reflexivity.
  cbn [negb orb andb].
  cbn [list_find].
  destruct (decide (value IMMEDIATELY ∈ labels pr)) as [Hi|Hi].
  { rewrite (bool_decide_eq_true_2 _ Hi), mergeable_in_iff.
    cbn [fmap option_fmap option_map snd readiness requires_tests andb].
    rewrite !run_bind, run_ret.
    by destruct (bool_decide _). }
  rewrite (bool_decide_eq_false_2 _ Hi).
  destruct (decide (value AFTER_TESTS ∈ labels pr)) as [Ht|Ht].
  { rewrite (bool_decide_eq_true_2 _ Ht).
    cbn [fmap option_fmap option_map snd readiness requires_tests andb prod_map Datatypes.id].
    rewrite !run_bind. unfold and_then.
    destruct (is_build_successful pr && is_mergeable pr); [|reflexivity].
    by destruct (run (rerun_stale_checks pr) t) as [[[|]|e] t']. }
  rewrite (bool_decide_eq_false_2 _ Ht).
  destruct (decide (value AFTER_TESTS_AND_APPROVAL ∈ labels pr)) as [Hta|Hta].
  { rewrite (bool_decide_eq_true_2 _ Hta).
    cbn [fmap option_fmap option_map snd readiness requires_tests andb prod_map Datatypes.id negb].
    rewrite !run_bind. unfold and_then.
    destruct (is_build_successful pr && is_mergeable pr && is_approved pr);
      [|reflexivity].
    by destruct (run (rerun_stale_checks pr) t) as [[[|]|e] t']. }
  rewrite (bool_decide_eq_false_2 _ Hta).
  destruct (decide (value AFTER_APPROVAL ∈ labels pr)) as [Ha|Ha].
  { rewrite (bool_decide_eq_true_2 _ Ha).
    cbn [fmap option_fmap option_map snd readiness requires_tests andb prod_map Datatypes.id].
    rewrite !run_bind, run_ret.
    by destruct (is_mergeable pr && is_approved pr). }
  rewrite (bool_decide_eq_false_2 _ Ha). reflexivity.
Qed.

Lemma selected_label_single l pr :
  selected_label [l] pr = if decide (value l ∈ labels pr) then Some l else None.
Proof. unfold selected_label. cbn [list_find]. by destruct (decide _). Qed.

Lemma by_precedence_selected precedence l pr t :
  selected_label precedence pr = Some l ->
  run (by_precedence precedence pr) t = run (by_precedence [l] pr) t.
Proof.
  intros Hsel. unfold automerge_by_precedence. rewrite Hsel.
  assert (value l ∈ labels pr) as Hl.
  { unfold selected_label in Hsel.
    destruct (list_find _ precedence) as [[i l']|] eqn:Hfind; [|done].
    injection Hsel as ->. by apply list_find_Some in Hfind as (_ & ? & _). }
  by rewrite selected_label_single, decide_True.
Qed.

(** C1, as the code has it.  One label is selected, by scanning in the
    order IMMEDIATELY, AFTER_TESTS, AFTER_TESTS_AND_APPROVAL,
    AFTER_APPROVAL, and the call behaves as if the pull request carried
    that label alone.  With AFTER_TESTS_AND_APPROVAL and AFTER_TESTS (and
    not IMMEDIATELY) it is the predicate of AFTER_TESTS that decides; with
    IMMEDIATELY and AFTER_APPROVAL, that of IMMEDIATELY. *)
Theorem automerge_scans_labels_in_coded_order (pr : PullRequest) (arg : bool)
    (t : list Call) :
  run (automerge pr arg) t = run (by_precedence CODED_PRECEDENCE pr) t
  /\ (forall l, selected_label CODED_PRECEDENCE pr = Some l ->
        run (automerge pr arg) t = run (by_precedence [l] pr) t)
  /\ (value AFTER_TESTS_AND_APPROVAL ∈ labels pr -> value AFTER_TESTS ∈ labels pr ->
      value IMMEDIATELY ∉ labels pr ->
        selected_label CODED_PRECEDENCE pr = Some AFTER_TESTS
        /\ run (automerge pr arg) t = run (by_precedence [AFTER_TESTS] pr) t)
  /\ (value IMMEDIATELY ∈ labels pr -> value AFTER_APPROVAL ∈ labels pr ->
        selected_label CODED_PRECEDENCE pr = Some IMMEDIATELY
        /\ run (automerge pr arg) t = run (by_precedence [IMMEDIATELY] pr) t).
Proof.
  pose proof (automerge_by_coded_precedence pr arg t) as Hcoded.
  assert (forall l, selected_label CODED_PRECEDENCE pr = Some l ->
            run (automerge pr arg) t = run (by_precedence [l] pr) t) as Hsingle.
  { intros l Hl. rewrite Hcoded. by apply by_precedence_selected. }
  split; [done|]. split; [done|]. split.
  - intros _ Ht Hi.
    assert (selected_label CODED_PRECEDENCE pr = Some AFTER_TESTS) as Hsel.
    { unfold selected_label, CODED_PRECEDENCE. cbn [list_find].
      by rewrite decide_False, decide_True. }
    split; [done|]. by apply Hsingle.
  - intros Hi _.
    assert (selected_label CODED_PRECEDENCE pr = Some IMMEDIATELY) as Hsel.
    { unfold selected_label, CODED_PRECEDENCE. cbn [list_find].
      by rewrite decide_True. }
    split; [done|]. by apply Hsingle.
Qed.

Lemma rerun_call_not_merge pr (reruns : list CheckRun) c :
  c ∈ rerun_call pr <$> reruns ->
  forall owner repo n ti bo, c <> MergePullRequest owner repo n ti bo.
Proof. intros (r & -> & _)%list_elem_of_fmap. done. Qed.

(** What a pass does, by the outcome of its attempt to rerun stale
    checks. *)
Lemma automerge_cases pr arg t :
  exists rerun reruns,
    run (rerun_attempt cfg now rerequest_reply pr) t
    = (rerun, t ++ (rerun_call pr <$> reruns))
    /\ ((SGTM_FEATURE__AUTOMERGE_ENABLED cfg = false \/ closed pr = true
         \/ merged pr = true) -> reruns = [])
    /\ run (automerge pr arg) t
       = match rerun with
         | Return did_rerun =>
           if ready_for_automerge cfg pr && negb did_rerun
           then (Return true, t ++ (rerun_call pr <$> reruns) ++ [merge_call pr])
           else (Return false, t ++ (rerun_call pr <$> reruns))
         | Raise e => (Raise e, t ++ (rerun_call pr <$> reruns))
         end.
Proof.
  rewrite automerge_by_coded_precedence.
  unfold rerun_attempt, ready_for_automerge, automerge_by_precedence.
  destruct (SGTM_FEATURE__AUTOMERGE_ENABLED cfg), (closed pr), (merged pr);
    cbn [negb orb andb];
    try (exists (Return false), []; simpl; rewrite app_nil_r;
         repeat split; reflexivity).
  destruct (selected_label CODED_PRECEDENCE pr) as [l|].
  2:{ exists (Return false), []. simpl. rewrite app_nil_r.
      split; [done|]. split; [|done]. intros [|[|]]; done. }
  rewrite run_bind.
  destruct (readiness l pr) eqn:Hready, (requires_tests l) eqn:Htests;
    cbn [andb].
  - destruct (maybe_rerun_stale_checks_calls cfg now rerequest_reply pr t)
      as (o & reruns & Hrun).
    exists o, reruns. rewrite Hrun. split; [done|].
    split; [intros [|[|]]; done|].
    destruct o as [[|]|e]; simpl; [done| |done].
    by rewrite app_assoc.
  - exists (Return false), []. simpl. rewrite app_nil_r.
    split; [done|]. split; [intros [|[|]]; done|done].
  - exists (Return false), []. simpl. rewrite app_nil_r.
    split; [done|]. split; [intros [|[|]]; done|done].
  - exists (Return false), []. simpl. rewrite app_nil_r.
    split; [done|]. split; [intros [|[|]]; done|done].
Qed.

(** C4.  A pass returns true exactly when it issues the merge call; it
    issues it exactly when the pull request is ready under the selected
    label and the attempt to rerun stale checks reported no rerun; when
    the attempt reported a rerun, the pass returns false without merging;
    whatever merge call is issued carries the title and the body of the
    pull request; and with the feature disabled, or on a closed or merged
    pull request, the pass returns false and calls nothing. *)
Theorem automerge_merges_iff_ready_and_no_rerun (pr : PullRequest) (arg : bool)
    (t : list Call) :
  let rerun := returned (rerun_attempt cfg now rerequest_reply pr) t in
  (returned (automerge pr arg) t = Return true
     <-> merge_call pr ∈ calls_issued (automerge pr arg) t)
  /\ (merge_call pr ∈ calls_issued (automerge pr arg) t
        <-> ready_for_automerge cfg pr = true /\ rerun = Return false)
  /\ (rerun = Return true ->
        returned (automerge pr arg) t = Return false
        /\ merge_call pr ∉ calls_issued (automerge pr arg) t)
  /\ (forall owner repo n title' body',
        MergePullRequest owner repo n title' body' ∈ calls_issued (automerge pr arg) t ->
        MergePullRequest owner repo n title' body' = merge_call pr)
  /\ (SGTM_FEATURE__AUTOMERGE_ENABLED cfg = false \/ closed pr = true
      \/ merged pr = true ->
        returned (automerge pr arg) t = Return false
        /\ calls_issued (automerge pr arg) t = []).
Proof.
  destruct (automerge_cases pr arg t) as (rerun & reruns & Hrerun & Hoff & Hrun).
  unfold returned. rewrite Hrerun. cbn [fst].
  assert (merge_call pr ∉ rerun_call pr <$> reruns) as Hnot.
  { intros Hin. by eapply rerun_call_not_merge in Hin. }
  assert (forall c, c ∈ rerun_call pr <$> reruns ->
            forall owner repo n ti bo, c <> MergePullRequest owner repo n ti bo)
    as Hreruns by (intros c; apply rerun_call_not_merge).
  assert (SGTM_FEATURE__AUTOMERGE_ENABLED cfg = false \/ closed pr = true
          \/ merged pr = true -> ready_for_automerge cfg pr = false) as Hnotready.
  { unfold ready_for_automerge.
    intros [ -> | [ -> | -> ] ]; [done| |];
      destruct (SGTM_FEATURE__AUTOMERGE_ENABLED cfg), (closed pr); done. }
  assert (SGTM_FEATURE__AUTOMERGE_ENABLED cfg = false \/ closed pr = true
          \/ merged pr = true -> rerun = Return false) as Hnorerun.
  { intros Hc. unfold rerun_attempt in Hrerun.
    rewrite (Hnotready Hc) in Hrerun. by injection Hrerun as <- _. }
  assert (exists res new,
            run (automerge pr arg) t = (res, t ++ new)
            /\ (res = Return true <-> merge_call pr ∈ new)
            /\ (merge_call pr ∈ new
                <-> ready_for_automerge cfg pr = true /\ rerun = Return false)
            /\ (res = Return true \/ res = Return false
                \/ exists e, rerun = Raise e /\ res = Raise e)
            /\ (new = rerun_call pr <$> reruns
                \/ new = (rerun_call pr <$> reruns) ++ [merge_call pr]))
    as (res & new & Hres & Hiff1 & Hiff2 & Hshape & Hnew).
  { destruct rerun as [did_rerun|e].
    - destruct (ready_for_automerge cfg pr), did_rerun; cbn [andb negb] in Hrun;
        eexists _, _; (split; [exact Hrun|]);
        rewrite ?elem_of_app, ?list_elem_of_singleton;
        repeat split; try tauto; try (intros [? ?]; done); try done; auto.
    - eexists _, _. split; [exact Hrun|].
      repeat split; try tauto; try (intros [? ?]; done); try done; eauto. }
  rewrite (calls_issued_app _ _ _ (f_equal snd Hres)), Hres. cbn [fst].
  split; [done|]. split; [done|]. split; [|split].
  - intros ->. split; [|rewrite Hiff2; by intros [_ [=]]].
    destruct Hshape as [Hres'|[->|(e & [=] & _)]]; [|done].
    apply Hiff1, Hiff2 in Hres' as [_ [=]].
  - intros owner repo n ti bo Hin.
    destruct Hnew as [->| ->].
    + by eapply Hreruns in Hin.
    + apply elem_of_app in Hin as [Hin|Hin%list_elem_of_singleton]; [|done].
      by eapply Hreruns in Hin.
  - intros Hc.
    pose proof (Hnotready Hc) as Hready. pose proof (Hnorerun Hc) as ->.
    pose proof (Hoff Hc) as ->.
    assert (merge_call pr ∉ new) as Hnomerge.
    { rewrite Hiff2, Hready. by intros [[=] _]. }
    split.
    + destruct Hshape as [Hres'|[->|(e & [=] & _)]]; [|done].
      exfalso. by apply Hnomerge, Hiff1.
    + destruct Hnew as [->| ->]; [done|].
      exfalso. apply Hnomerge. simpl. left.
Qed.

End Automerge.

(** ** The properties on concrete snapshots *)

(** C1, as stated, fails: with the labels AFTER_TESTS_AND_APPROVAL and
    AFTER_TESTS on a pull request whose build is successful, which is
    mergeable and not approved, the call merges, as the predicate of
    AFTER_TESTS has it; scanning in the specified order selects
    AFTER_TESTS_AND_APPROVAL, whose predicate does not hold, and does not
    merge. *)
Lemma automerge_prefers_after_tests :
  run (maybe_automerge_pull_request_and_rerun_stale_checks example_config example_now
         rerequest_accepted labelled_tests_and_approval_and_tests false) []
  = (Return true, [merge_call labelled_tests_and_approval_and_tests])
  /\ selected_label SPECIFIED_PRECEDENCE labelled_tests_and_approval_and_tests
     = Some AFTER_TESTS_AND_APPROVAL
  /\ readiness AFTER_TESTS_AND_APPROVAL labelled_tests_and_approval_and_tests = false
  /\ run (automerge_by_precedence example_config example_now rerequest_accepted
            SPECIFIED_PRECEDENCE labelled_tests_and_approval_and_tests) []
     = (Return false, [])
  /\ run (maybe_automerge_pull_request_and_rerun_stale_checks example_config example_now
            rerequest_accepted labelled_tests_and_approval_and_tests false) []
     <> run (automerge_by_precedence example_config example_now rerequest_accepted
               SPECIFIED_PRECEDENCE labelled_tests_and_approval_and_tests) [].
Proof. repeat split; by vm_compute. Qed.

Lemma automerge_scans_labels_in_coded_order_witness :
  (selected_label CODED_PRECEDENCE labelled_tests_and_approval_and_tests = Some AFTER_TESTS
   /\ run (maybe_automerge_pull_request_and_rerun_stale_checks example_config example_now
             rerequest_accepted labelled_tests_and_approval_and_tests false) []
      = run (automerge_by_precedence example_config example_now rerequest_accepted
               [AFTER_TESTS] labelled_tests_and_approval_and_tests) [])
  /\ (selected_label CODED_PRECEDENCE labelled_immediately_and_after_approval
      = Some IMMEDIATELY
      /\ run (maybe_automerge_pull_request_and_rerun_stale_checks example_config
                example_now rerequest_accepted labelled_immediately_and_after_approval
                false) []
         = run (automerge_by_precedence example_config example_now rerequest_accepted
                  [IMMEDIATELY] labelled_immediately_and_after_approval) []).
Proof.
  split.
  - apply (proj1 (proj2 (proj2 (automerge_scans_labels_in_coded_order example_config
             example_now rerequest_accepted labelled_tests_and_approval_and_tests
             false [])))).
    + by apply (bool_decide_unpack _).
    + by apply (bool_decide_unpack _).
    + by apply (bool_decide_unpack _).
  - apply (proj2 (proj2 (proj2 (automerge_scans_labels_in_coded_order example_config
             example_now rerequest_accepted labelled_immediately_and_after_approval
             false [])))).
    + by apply (bool_decide_unpack _).
    + by apply (bool_decide_unpack _).
Defined.

(** A pass over a ready pull request with stale checks reruns one check run
    per suite and does not merge; with the checks fresh it merges. *)
Example automerge_deferred_by_rerun :
  run (maybe_automerge_pull_request_and_rerun_stale_checks example_config example_now
         rerequest_accepted ready_with_stale_checks false) []
  = (Return false, [RerequestCheckRun "acme" "app" 501]).
Proof. by vm_compute. Qed.

Lemma automerge_merges_iff_ready_and_no_rerun_witness :
  (returned (maybe_automerge_pull_request_and_rerun_stale_checks example_config
               example_now rerequest_accepted ready_with_stale_checks false) []
   = Return false
   /\ merge_call ready_with_stale_checks
      ∉ calls_issued (maybe_automerge_pull_request_and_rerun_stale_checks example_config
                        example_now rerequest_accepted ready_with_stale_checks false) [])
  /\ (returned (maybe_automerge_pull_request_and_rerun_stale_checks example_config
                  example_now rerequest_accepted merged_at_unknown false) []
      = Return false
      /\ calls_issued (maybe_automerge_pull_request_and_rerun_stale_checks example_config
                         example_now rerequest_accepted merged_at_unknown false) []
         = []).
Proof.
  split.
  - apply (proj1 (proj2 (proj2 (automerge_merges_iff_ready_and_no_rerun example_config
             example_now rerequest_accepted ready_with_stale_checks false [])))).
    by vm_compute.
  - apply (proj2 (proj2 (proj2 (proj2 (automerge_merges_iff_ready_and_no_rerun
             example_config example_now rerequest_accepted merged_at_unknown
             false []))))).
    right. left. reflexivity.
Defined.

Example rerun_scan_first_stale_of_each_suite :
  run (_maybe_rerun_stale_checks example_config example_now rerequest_accepted
         ready_with_stale_checks) []
  = (Return true, [RerequestCheckRun "acme" "app" 501]).
Proof. by vm_compute. Qed.

(** C10, as stated, fails: with a threshold of twenty million hours, which
    reach back before the year 1, the scan of a pull request without commits
    raises [OverflowError], not [IndexError]. *)
Lemma rerun_stale_checks_overflow_before_index :
  commits open_pull_request = []
  /\ base_ref_name open_pull_request
     ∈ SGTM_FEATURE__CHECK_RERUN_BASE_REF_NAMES config_with_huge_threshold
  /\ 0 < SGTM_FEATURE__CHECK_RERUN_THRESHOLD_HOURS config_with_huge_threshold
  /\ run (_maybe_rerun_stale_checks config_with_huge_threshold example_now
            rerequest_accepted open_pull_request) []
     = (Raise OverflowError, [])
  /\ run (_maybe_rerun_stale_checks config_with_huge_threshold example_now
            rerequest_accepted open_pull_request) []
     <> (Raise IndexError, []).
Proof.
  split; [reflexivity|]. split; [by apply (bool_decide_unpack _)|].
  split; [reflexivity|]. split; by vm_compute.
Qed.

Lemma rerun_stale_checks_no_commit_index_error_witness :
  returned (_maybe_rerun_stale_checks example_config example_now rerequest_accepted
              open_pull_request) []
  <> Return false
  /\ run (_maybe_rerun_stale_checks example_config example_now rerequest_accepted
            open_pull_request) []
     = (Raise IndexError, [])
  /\ run (_maybe_rerun_stale_checks config_with_huge_threshold example_now
            rerequest_accepted open_pull_request) []
     = (Raise OverflowError, []).
Proof.
  split; [|split].
  - apply (rerun_stale_checks_no_commit_index_error example_config example_now
             rerequest_accepted open_pull_request []).
    + reflexivity.
    + by apply (bool_decide_unpack _).
    + reflexivity.
  - apply (rerun_stale_checks_no_commit_index_error example_config example_now
             rerequest_accepted open_pull_request []).
    + reflexivity.
    + by apply (bool_decide_unpack _).
    + reflexivity.
    + by apply (bool_decide_unpack _).
  - apply (rerun_stale_checks_no_commit_index_error config_with_huge_threshold
             example_now rerequest_accepted open_pull_request []).
    + reflexivity.
    + by apply (bool_decide_unpack _).
    + reflexivity.
    + apply (bool_decide_eq_false _). by vm_compute.
Defined.

Lemma warning_comment_posted_once_witness :
  calls_issued (maybe_add_automerge_warning_comment example_config awaiting_approval) []
  = [warning_call awaiting_approval]
  /\ calls_issued (maybe_add_automerge_warning_comment example_config
                     awaiting_approval_warned) [warning_call awaiting_approval]
     = []
  /\ (length
        (calls_issued (maybe_add_automerge_warning_comment example_config
                         awaiting_approval) []
         ++ calls_issued (maybe_add_automerge_warning_comment example_config
                            awaiting_approval_warned)
              (snd (run (maybe_add_automerge_warning_comment example_config
                           awaiting_approval) []))) <= 1)%nat.
Proof.
  split; [|split].
  - apply (proj1 (warning_comment_posted_once example_config awaiting_approval [])).
    split; [reflexivity|]. split; [right; by apply (bool_decide_unpack _)|].
    split; [reflexivity|]. constructor.
  - apply (proj1 (proj2 (proj2 (warning_comment_posted_once example_config
             awaiting_approval_warned [warning_call awaiting_approval])))
             warning_posted).
    + left.
    + reflexivity.
  - apply (proj2 (proj2 (proj2 (warning_comment_posted_once example_config
             awaiting_approval []))) awaiting_approval_warned).
    repeat (split; [reflexivity|]). split.
    + intros c Hc. inversion Hc.
    + intros text Hin. exists warning_posted. split; [left|].
      vm_compute in Hin. apply list_elem_of_singleton in Hin.
      injection Hin as ->. by vm_compute.
Defined.

(** Merged at 100 after an approval at 50 and a request for changes by the
    follow-up reviewer at 80: the last qualifying review is not an
    approval. *)
Example changes_requested_last_is_not_approved :
  pull_request_approved_before_merging example_config
    (set_reviews merged_after_followup_approval
       [ {| review_author := {| login := "bob" |}; review_body := "fine";
            submitted_at := 50; review_state := APPROVED_REVIEW |};
         {| review_author := {| login := "followup-bot" |}; review_body := "";
            submitted_at := 80; review_state := CHANGES_REQUESTED |} ])
  = Return NO.
Proof. by vm_compute. Qed.

(** An approval of the follow-up reviewer alone needs follow-up. *)
Example followup_approval_alone_needs_followup :
  pull_request_approved_before_merging example_config
    (set_reviews merged_after_followup_approval
       [ {| review_author := {| login := "followup-bot" |}; review_body := "";
            submitted_at := 80; review_state := APPROVED_REVIEW |} ])
  = Return NEEDS_FOLLOWUP.
Proof. by vm_compute. Qed.

(** * Further properties of [logic.py] *)

(** ** Sorting *)

Section SortedMore.
Context {A : Type} (key : A -> Z).

Lemma sorted_elem_of (x : A) (l : list A) : x ∈ sorted key l <-> x ∈ l.
Proof.
  induction l as [|y l IHl]; simpl; [done|].
  rewrite insert_by_key_elem_of, IHl, elem_of_cons. done.
Qed.

Lemma last_sorted_max (s : list A) (x : A) :
  StronglySorted (fun a b => key a <= key b) s ->
  last s = Some x ->
  forall y, y ∈ s -> key y <= key x.
Proof.
  induction 1 as [|z s Hs IHs Hz]; [done|].
  intros Hlast y Hy. destruct s as [|z' s'].
  - injection Hlast as <-. apply list_elem_of_singleton in Hy as ->. lia.
  - change (last (z' :: s') = Some x) in Hlast.
    apply elem_of_cons in Hy as [->|Hy]; [|by apply IHs].
    assert (x ∈ z' :: s') as Hx.
    { apply last_Some in Hlast as [l' ->]. apply elem_of_app. right. left. }
    by eapply Forall_forall in Hz.
Qed.

Lemma filter_key_length_le_1 (l : list A) (k : Z) :
  NoDup (key <$> l) -> (length (filter (fun x => key x = k) l) <= 1)%nat.
Proof.
  induction l as [|x l IHl]; simpl; [lia|].
  intros [Hx Hl]%NoDup_cons. rewrite filter_cons.
  destruct (decide (key x = k)) as [Hk|Hk]; [|by apply IHl].
  assert (filter (fun x => key x = k) l = []) as ->; [|simpl; lia].
  destruct (filter _ l) as [|y l'] eqn:E; [done|]. exfalso.
  assert (y ∈ filter (fun x => key x = k) l) as Hy by (rewrite E; left).
  apply list_elem_of_filter in Hy as [Hky Hy].
  apply Hx. apply list_elem_of_fmap. exists y. split; [congruence|done].
Qed.

(** Where no two keys are equal, the order of the input does not matter. *)
Lemma sorted_Permutation (l l' : list A) :
  NoDup (key <$> l) -> l ≡ₚ l' -> sorted key l = sorted key l'.
Proof.
  intros Hnd Hp.
  destruct (sorted_stable_sort_of key l) as [Hs Hf].
  destruct (sorted_stable_sort_of key l') as [Hs' Hf'].
  apply (stable_sort_unique key); [done..|].
  intros k. rewrite Hf, Hf'.
  assert (filter (fun x => key x = k) l ≡ₚ filter (fun x => key x = k) l') as Hpk
    by (by apply filter_Permutation).
  pose proof (filter_key_length_le_1 l k Hnd) as Hlen.
  destruct (filter (fun x => key x = k) l) as [|x [|x' m]] eqn:E.
  - by apply Permutation_nil_l in Hpk.
  - by apply Permutation_singleton_l in Hpk.
  - simpl in Hlen. lia.
Qed.
End SortedMore.

Lemma StronglySorted_filter {A} (R : A -> A -> Prop) (P : A -> Prop)
    `{!forall x, Decision (P x)} (l : list A) :
  StronglySorted R l -> StronglySorted R (filter P l).
Proof.
  induction 1 as [|x l Hl IHl Hx]; [constructor|].
  rewrite filter_cons. destruct (decide (P x)); [|done].
  constructor; [done|]. apply Forall_forall. intros y Hy.
  apply list_elem_of_filter in Hy as [_ Hy]. by eapply Forall_forall in Hx.
Qed.

(** ** More on approval before merging *)

Section BeforeMergingMore.
Variable cfg : Config.

Local Abbreviation approved_before := (pull_request_approved_before_merging cfg).

Lemma premerge_reviews_reference_elem_of pr t r :
  r ∈ premerge_reviews_reference pr t <-> r ∈ reviews pr /\ qualifies_before t r.
Proof.
  unfold premerge_reviews_reference, qualifies_before.
  rewrite sorted_elem_of, list_elem_of_filter. tauto.
Qed.

Lemma premerge_reviews_reference_sorted pr t :
  StronglySorted (fun a b => submitted_at a <= submitted_at b)
                 (premerge_reviews_reference pr t).
Proof. apply (sorted_stable_sort_of submitted_at). Qed.

Lemma approved_before_reference pr t :
  merged pr = true -> merged_at pr = Some t ->
  approved_before pr = Return (approved_before_merging_reference cfg pr t).
Proof.
  intros Hm Ht. unfold pull_request_approved_before_merging.
  rewrite Hm, Ht. simpl. rewrite premerge_reviews_eq.
  unfold approved_before_merging_reference.
  set (premerge := premerge_reviews_reference pr t).
  rewrite !getitem_last.
  destruct (last premerge) as [latest|] eqn:Hlast.
  2:{ apply last_None in Hlast. by rewrite Hlast. }
  rewrite bool_decide_eq_false_2.
  2:{ intros Hlen%length_zero_iff_nil. by rewrite Hlen in Hlast. }
  simpl. unfold is_approval.
  destruct (decide (review_state latest = APPROVED_REVIEW)) as [Happ|Happ].
  2:{ by rewrite bool_decide_eq_false_2. }
  rewrite bool_decide_eq_true_2 by done. simpl.
  destruct (decide (needs_followup cfg (login (review_author latest)))) as [Hf|Hf].
  2:{ by rewrite bool_decide_eq_false_2. }
  rewrite bool_decide_eq_true_2 by done.
  destruct (last (filter _ premerge)) as [r|] eqn:Hlast'.
  2:{ apply last_None in Hlast'. by rewrite Hlast'. }
  rewrite bool_decide_eq_false_2.
  2:{ intros Hlen%length_zero_iff_nil. by rewrite Hlen in Hlast'. }
  simpl.
  destruct (decide (review_state r = APPROVED_REVIEW)) as [Hr|Hr].
  - by rewrite bool_decide_eq_true_2.
  - by rewrite bool_decide_eq_false_2.
Qed.

(** A verdict other than an assertion failure comes from a merged pull
    request. *)
Lemma approved_before_returns pr s :
  approved_before pr = Return s ->
  merged pr = true
  /\ (merged_at pr = None /\ s = NO
      \/ exists t, merged_at pr = Some t
                   /\ s = approved_before_merging_reference cfg pr t).
Proof.
  intros Hs. destruct (merged pr) eqn:Hm.
  2:{ unfold pull_request_approved_before_merging in Hs. by rewrite Hm in Hs. }
  split; [done|]. destruct (merged_at pr) as [t|] eqn:Ht.
  - right. exists t. split; [done|].
    rewrite (approved_before_reference pr t Hm Ht) in Hs. by injection Hs.
  - left. split; [done|].
    unfold pull_request_approved_before_merging in Hs. rewrite Hm, Ht in Hs.
    by injection Hs.
Qed.

Lemma last_elem_of {A} (l : list A) (x : A) : last l = Some x -> x ∈ l.
Proof. intros [l' ->]%last_Some. apply elem_of_app. right. left. Qed.

(** X1.  [APPROVED] is never reported on the word of follow-up reviewers alone:
    some reviewer who is not a follow-up handle approved strictly before the
    merge. *)
Theorem approved_before_merging_is_corroborated (pr : PullRequest) :
  approved_before pr = Return APPROVED ->
  exists t r,
    merged_at pr = Some t
    /\ r ∈ reviews pr
    /\ review_state r = APPROVED_REVIEW
    /\ submitted_at r < t
    /\ ~ needs_followup cfg (login (review_author r)).
Proof.
  intros Hs. apply approved_before_returns in Hs as [_ [[_ [=]]|(t & Ht & Hs)]].
  exists t. unfold approved_before_merging_reference in Hs.
  destruct (last (premerge_reviews_reference pr t)) as [latest|] eqn:Hlast; [|done].
  destruct (decide (review_state latest = APPROVED_REVIEW)) as [Happ|]; [|done].
  destruct (decide (needs_followup cfg (login (review_author latest)))) as [Hf|Hf].
  - destruct (last (filter _ _)) as [r|] eqn:Hlast'; [|done].
    destruct (decide (review_state r = APPROVED_REVIEW)) as [Hr|]; [|done].
    apply last_elem_of, list_elem_of_filter in Hlast' as [Hnf Hin].
    apply premerge_reviews_reference_elem_of in Hin as [Hin [_ Hlt]].
    by exists r.
  - apply last_elem_of, premerge_reviews_reference_elem_of in Hlast
      as [Hin [_ Hlt]].
    by exists latest.
Qed.

(** X2.  [NEEDS_FOLLOWUP] is reported only when a latest qualifying review is an
    approval of a follow-up handle; with no follow-up handle configured it
    is never reported. *)
Theorem needs_followup_only_for_followup_approval (pr : PullRequest) :
  (approved_before pr = Return NEEDS_FOLLOWUP ->
     exists t latest,
       merged_at pr = Some t
       /\ latest ∈ reviews pr
       /\ review_state latest = APPROVED_REVIEW
       /\ submitted_at latest < t
       /\ needs_followup cfg (login (review_author latest))
       /\ forall r, r ∈ reviews pr -> qualifies_before t r ->
                    submitted_at r <= submitted_at latest)
  /\ (SGTM_FEATURE__FOLLOWUP_REVIEW_GITHUB_USERS cfg = ∅ ->
        approved_before pr <> Return NEEDS_FOLLOWUP).
Proof.
  assert (approved_before pr = Return NEEDS_FOLLOWUP ->
     exists t latest,
       merged_at pr = Some t
       /\ latest ∈ reviews pr
       /\ review_state latest = APPROVED_REVIEW
       /\ submitted_at latest < t
       /\ needs_followup cfg (login (review_author latest))
       /\ forall r, r ∈ reviews pr -> qualifies_before t r ->
                    submitted_at r <= submitted_at latest) as Hmain.
  { intros Hs. apply approved_before_returns in Hs as [_ [[_ [=]]|(t & Ht & Hs)]].
    exists t. unfold approved_before_merging_reference in Hs.
    destruct (last (premerge_reviews_reference pr t)) as [latest|] eqn:Hlast; [|done].
    destruct (decide (review_state latest = APPROVED_REVIEW)) as [Happ|]; [|done].
    destruct (decide (needs_followup cfg (login (review_author latest)))) as [Hf|Hf];
      [|done].
    exists latest.
    pose proof (last_elem_of _ _ Hlast) as Hin.
    apply premerge_reviews_reference_elem_of in Hin as [Hin [_ Hlt]].
    repeat (split; [done|]).
    intros r Hr Hq.
    apply (last_sorted_max submitted_at _ _ (premerge_reviews_reference_sorted pr t) Hlast).
    by apply premerge_reviews_reference_elem_of. }
  split; [done|].
  intros Hempty Hs. destruct (Hmain Hs) as (t & latest & _ & _ & _ & _ & Hf & _).
  unfold needs_followup in Hf. rewrite Hempty in Hf. by apply not_elem_of_empty in Hf.
Qed.

(** X3.  A request for changes that no qualifying approval follows or ties with
    decides: the verdict is [NO], whatever was approved earlier. *)
Theorem later_changes_requested_vetoes (pr : PullRequest) (t : datetime) (r : Review) :
  merged pr = true ->
  merged_at pr = Some t ->
  r ∈ reviews pr ->
  review_state r = CHANGES_REQUESTED ->
  submitted_at r < t ->
  (forall a, a ∈ reviews pr -> review_state a = APPROVED_REVIEW ->
             submitted_at a < t -> submitted_at a < submitted_at r) ->
  approved_before pr = Return NO.
Proof.
  intros Hm Ht Hr Hcr Hlt Hlater.
  rewrite (approved_before_reference pr t Hm Ht). f_equal.
  unfold approved_before_merging_reference.
  destruct (last (premerge_reviews_reference pr t)) as [latest|] eqn:Hlast; [|done].
  destruct (decide (review_state latest = APPROVED_REVIEW)) as [Happ|]; [|done].
  exfalso.
  pose proof (last_elem_of _ _ Hlast) as Hin.
  apply premerge_reviews_reference_elem_of in Hin as [Hin [_ Hlt']].
  assert (submitted_at r <= submitted_at latest) as Hmax.
  { apply (last_sorted_max submitted_at _ _
             (premerge_reviews_reference_sorted pr t) Hlast).
    apply premerge_reviews_reference_elem_of. split; [done|].
    split; [by right|done]. }
  specialize (Hlater latest Hin Happ Hlt'). lia.
Qed.

(** X4.  An approval by a reviewer who is not a follow-up handle, submitted
    before the merge and strictly after every request for changes that
    counts, decides: the verdict is [APPROVED]. *)
Theorem later_approval_overrides (pr : PullRequest) (t : datetime) (a : Review) :
  merged pr = true ->
  merged_at pr = Some t ->
  a ∈ reviews pr ->
  review_state a = APPROVED_REVIEW ->
  submitted_at a < t ->
  ~ needs_followup cfg (login (review_author a)) ->
  (forall c, c ∈ reviews pr -> review_state c = CHANGES_REQUESTED ->
             submitted_at c < t -> submitted_at c < submitted_at a) ->
  approved_before pr = Return APPROVED.
Proof.
  intros Hm Ht Ha Happ Hlt Hnf Hlater.
  rewrite (approved_before_reference pr t Hm Ht). f_equal.
  unfold approved_before_merging_reference.
  pose proof (premerge_reviews_reference_sorted pr t) as Hsorted.
  assert (a ∈ premerge_reviews_reference pr t) as HaP.
  { apply premerge_reviews_reference_elem_of. split; [done|]. split; [by left|done]. }
  assert (forall x, x ∈ premerge_reviews_reference pr t ->
                    submitted_at a <= submitted_at x ->
                    review_state x = APPROVED_REVIEW) as Hlate.
  { intros x [Hx [[Hs|Hs] Hxt]]%premerge_reviews_reference_elem_of Hle; [done|].
    specialize (Hlater x Hx Hs Hxt). lia. }
  destruct (last (premerge_reviews_reference pr t)) as [latest|] eqn:Hlast.
  2:{ apply last_None in Hlast. rewrite Hlast in HaP. by apply elem_of_nil in HaP. }
  rewrite decide_True.
  2:{ apply Hlate; [by apply last_elem_of|].
      by apply (last_sorted_max submitted_at _ _ Hsorted Hlast). }
  destruct (decide (needs_followup cfg (login (review_author latest)))); [|done].
  set (nf := filter _ (premerge_reviews_reference pr t)).
  assert (a ∈ nf) as Hanf by (by apply list_elem_of_filter).
  destruct (last nf) as [r|] eqn:Hlast'.
  2:{ apply last_None in Hlast'. rewrite Hlast' in Hanf. by apply elem_of_nil in Hanf. }
  rewrite decide_True; [done|].
  apply Hlate.
  - apply last_elem_of in Hlast'. by apply list_elem_of_filter in Hlast' as [_ ?].
  - apply (last_sorted_max submitted_at nf r); [|done..].
    by apply StronglySorted_filter.
Qed.

(** X5.  A review that is neither an approval nor a request for changes, or that
    was submitted at the time of the merge or later, does not influence the
    verdict. *)
Theorem approved_before_merging_ignores_other_reviews (pr : PullRequest)
    (rs1 : list Review) (r : Review) (rs2 : list Review) :
  reviews pr = rs1 ++ r :: rs2 ->
  (review_state r <> APPROVED_REVIEW /\ review_state r <> CHANGES_REQUESTED)
  \/ (exists t, merged_at pr = Some t /\ t <= submitted_at r) ->
  approved_before (set_reviews pr (rs1 ++ rs2)) = approved_before pr.
Proof.
  intros Hrs Hr. unfold pull_request_approved_before_merging. simpl.
  destruct (merged pr); [|done]. simpl.
  destruct (merged_at pr) as [t|] eqn:Ht; [|done].
  rewrite Hrs, !filter_app, (filter_cons_False _ r); [done|].
  intros [Hq Hlt]. apply is_approval_or_changes_requested_iff in Hq.
  destruct Hr as [[H1 H2]|(t' & [= <-] & Hle)]; [tauto|lia].
Qed.

(** X6.  Where no two reviews were submitted at the same time, the verdict does
    not depend on the order in which the snapshot lists them. *)
Theorem approved_before_merging_order_independent (pr : PullRequest)
    (rs : list Review) :
  NoDup (submitted_at <$> reviews pr) ->
  rs ≡ₚ reviews pr ->
  approved_before (set_reviews pr rs) = approved_before pr.
Proof.
  intros Hnd Hp. unfold pull_request_approved_before_merging. simpl.
  destruct (merged pr); [|done]. simpl.
  destruct (merged_at pr) as [t|] eqn:Ht; [|done].
  set (Q := fun review : Review =>
              is_approval_or_changes_requested review /\ submitted_at review < t).
  assert (sorted submitted_at (filter Q rs)
          = sorted submitted_at (filter Q (reviews pr))) as ->; [|done].
  symmetry. apply sorted_Permutation.
  - eapply sublist_NoDup; [exact Hnd|]. apply fmap_sublist, sublist_filter.
  - by rewrite Hp.
Qed.

End BeforeMergingMore.

(** ** More on approval after merging *)

Section AfterMergingMore.
Variable cfg : Config.
Variable str_lower : string -> string.

Local Abbreviation approved_after := (pull_request_approved_after_merging cfg str_lower).

(** X7.  The kind of a review is not looked at after the merge: whatever kinds
    the reviews have, a request for changes included, the verdict is the
    same. *)
Theorem approved_after_merging_ignores_review_kind (pr : PullRequest)
    (kind : Review -> ReviewState) :
  approved_after
    (set_reviews pr ((fun r => set_review_state (kind r) r) <$> reviews pr))
  = approved_after pr.
Proof.
  unfold pull_request_approved_after_merging. simpl.
  destruct (merged_at pr) as [t|]; [|done].
  assert (forall rs : list Review,
            review_body <$> filter (fun review => t <= submitted_at review
                                      /\ ~ needs_followup cfg (login (review_author review)))
                                   ((fun r => set_review_state (kind r) r) <$> rs)
            = review_body <$> filter (fun review => t <= submitted_at review
                                        /\ ~ needs_followup cfg (login (review_author review)))
                                     rs) as Hbodies.
  { induction rs as [|r rs IHrs]; [done|].
    rewrite fmap_cons, !filter_cons. simpl.
    destruct (decide (t <= submitted_at r
                      /\ ~ needs_followup cfg (login (review_author r))));
      rewrite ?fmap_cons, IHrs; done. }
  by rewrite Hbodies.
Qed.

Lemma approved_after_mono (pr pr' : PullRequest) :
  merged_at pr' = merged_at pr ->
  author_handle pr' = author_handle pr ->
  (forall c, c ∈ comments pr -> c ∈ comments pr') ->
  (forall r, r ∈ reviews pr -> r ∈ reviews pr') ->
  approved_after pr = true ->
  approved_after pr' = true.
Proof.
  intros Hm Ha Hc Hr Happ.
  destruct (merged_at pr) as [t|] eqn:Ht.
  2:{ unfold pull_request_approved_after_merging in Happ. by rewrite Ht in Happ. }
  apply (approved_after_iff cfg str_lower pr' t Hm).
  apply (approved_after_iff cfg str_lower pr t Ht) in Happ
    as [(c & (Hin & H1 & H2 & H3) & Hmk)|(r & (Hin & H1 & H2) & Hmk)].
  - left. exists c. split; [|done]. split; [by apply Hc|]. by rewrite Ha.
  - right. exists r. split; [|done]. split; [by apply Hr|]. done.
Qed.

(** X8.  More comments and reviews never withdraw an approval given after the
    merge. *)
Theorem approved_after_merging_monotone (pr pr' : PullRequest) :
  merged_at pr' = merged_at pr ->
  author_handle pr' = author_handle pr ->
  (forall c, c ∈ comments pr -> c ∈ comments pr') ->
  (forall r, r ∈ reviews pr -> r ∈ reviews pr') ->
  approved_after pr = true ->
  approved_after pr' = true.
Proof. apply approved_after_mono. Qed.

(** X9.  The verdict depends on which comments and reviews there are, not on
    their order nor on repetitions. *)
Theorem approved_after_merging_order_independent (pr pr' : PullRequest) :
  merged_at pr' = merged_at pr ->
  author_handle pr' = author_handle pr ->
  (forall c, c ∈ comments pr <-> c ∈ comments pr') ->
  (forall r, r ∈ reviews pr <-> r ∈ reviews pr') ->
  approved_after pr' = approved_after pr.
Proof.
  intros Hm Ha Hc Hr.
  destruct (approved_after pr) eqn:Happ.
  - apply (approved_after_mono pr pr'); try done.
    + intros c. apply Hc.
    + intros r. apply Hr.
  - apply not_true_is_false. intros Happ'.
    apply (approved_after_mono pr' pr) in Happ'; try done.
    + congruence.
    + intros c. apply Hc.
    + intros r. apply Hr.
Qed.

(** X10.  What was written before the merge does not count, approval marker or
    not. *)
Theorem approved_after_merging_ignores_premerge (pr : PullRequest) (t : datetime) :
  merged_at pr = Some t ->
  (forall cs1 c cs2, comments pr = cs1 ++ c :: cs2 -> published_at c < t ->
     approved_after (set_comments pr (cs1 ++ cs2)) = approved_after pr)
  /\ (forall rs1 r rs2, reviews pr = rs1 ++ r :: rs2 -> submitted_at r < t ->
        approved_after (set_reviews pr (rs1 ++ rs2)) = approved_after pr).
Proof.
  intros Ht. split.
  - intros cs1 c cs2 Hcs Hlt. unfold pull_request_approved_after_merging. simpl.
    rewrite Ht, Hcs, !filter_app, (filter_cons_False _ c); [done|].
    intros [Hle _]. lia.
  - intros rs1 r rs2 Hrs Hlt. unfold pull_request_approved_after_merging. simpl.
    rewrite Ht, Hrs, !filter_app, (filter_cons_False _ r); [done|].
    intros [Hle _]. lia.
Qed.

End AfterMergingMore.

(** ** More on the stale-check scan *)

Lemma answered_app reply t calls1 calls2 :
  answered reply t (calls1 ++ calls2)
  = answered reply t calls1 || answered reply (t ++ calls1) calls2.
Proof.
  revert t. induction calls1 as [|c calls1 IH]; intros t; simpl.
  - by rewrite app_nil_r.
  - by rewrite IH, <- app_assoc, orb_assoc.
Qed.

Lemma suite_rerun_is_Some fb runs o :
  suite_rerun fb runs o -> (is_Some o <-> Exists (stale fb) runs).
Proof.
  intros [runs' Hnone|earlier r later Hearlier Hr].
  - split; [by intros [? [=]]|].
    intros Hex. apply Exists_exists in Hex as (r & Hin & Hr).
    by eapply Forall_forall in Hnone.
  - split; [|by eexists]. intros _. apply Exists_app. right. by left.
Qed.

Lemma suite_rerun_stale fb runs r :
  suite_rerun fb runs (Some r) -> r ∈ runs /\ stale fb r.
Proof.
  inversion 1; subst. split; [|done]. apply elem_of_app. right. left.
Qed.

Lemma chosen_count fb (suites : list CheckSuite) (chosen : list (option CheckRun)) :
  Forall2 (fun suite o => suite_rerun fb (check_runs suite) o) suites chosen ->
  length (concat (option_list <$> chosen)) = length (filter (has_stale fb) suites).
Proof.
  induction 1 as [|suite o suites chosen Ho _ IH]; [done|].
  rewrite fmap_cons, filter_cons. simpl. rewrite length_app, IH.
  pose proof (suite_rerun_is_Some _ _ _ Ho) as Hsome.
  destruct (decide (has_stale fb suite)) as [Hs|Hs].
  - apply Hsome in Hs as [r ->]. done.
  - destruct o as [r|]; [|done]. exfalso. apply Hs, Hsome. by eexists.
Qed.

Lemma chosen_stale fb (suites : list CheckSuite) (chosen : list (option CheckRun)) :
  Forall2 (fun suite o => suite_rerun fb (check_runs suite) o) suites chosen ->
  Forall (stale fb) (concat (option_list <$> chosen)).
Proof.
  induction 1 as [|suite o suites chosen Ho _ IH]; [constructor|].
  rewrite fmap_cons. simpl. apply Forall_app. split; [|done].
  destruct o as [r|]; [|constructor].
  repeat constructor. by apply suite_rerun_stale in Ho as [_ ?].
Qed.

Section ScanMore.
Variable cfg : Config.
Variable now : datetime.
Variable rerequest_reply : list Call -> string -> string -> Z -> bool.

Local Abbreviation scan_runs := (scan_check_runs rerequest_reply).
Local Abbreviation scan_suites := (scan_check_suites rerequest_reply).
Local Abbreviation rerun_stale_checks := (_maybe_rerun_stale_checks cfg now rerequest_reply).
Local Abbreviation rerun_on_approval :=
  (maybe_rerun_stale_checks_on_approved_pull_request cfg now rerequest_reply).

Lemma scan_check_runs_answered pr fb runs did_rerun t :
  exists calls,
    run (scan_runs pr fb runs did_rerun) t
    = (Return (did_rerun || answered rerequest_reply t calls), t ++ calls).
Proof.
  induction runs as [|r runs IH]; simpl.
  - exists []. simpl. by rewrite orb_false_r, app_nil_r.
  - destruct (is_check_run_stale fb r); [|done].
    exists [rerun_call pr r]. simpl. by rewrite orb_false_r.
Qed.

Lemma scan_check_suites_answered pr fb suites did_rerun t :
  exists calls,
    run (scan_suites pr fb suites did_rerun) t
    = (Return (did_rerun || answered rerequest_reply t calls), t ++ calls).
Proof.
  revert did_rerun t. induction suites as [|suite suites IH]; intros did_rerun t.
  - exists []. simpl. by rewrite orb_false_r, app_nil_r.
  - simpl.
    destruct (scan_check_runs_answered pr fb (check_runs suite) did_rerun t)
      as (calls1 & ->).
    destruct (IH (did_rerun || answered rerequest_reply t calls1) (t ++ calls1))
      as (calls2 & ->).
    exists (calls1 ++ calls2). by rewrite answered_app, app_assoc, orb_assoc.
Qed.

Lemma rerun_stale_checks_index_error pr t :
  commits pr = [] ->
  base_ref_name pr ∈ SGTM_FEATURE__CHECK_RERUN_BASE_REF_NAMES cfg ->
  0 < SGTM_FEATURE__CHECK_RERUN_THRESHOLD_HOURS cfg ->
  freshness_date_representable cfg now ->
  run (rerun_stale_checks pr) t = (Raise IndexError, t).
Proof.
  intros Hcommits Hbase Hthr Hrep.
  by rewrite rerun_stale_checks_unfold, Hcommits, !decide_True.
Qed.

Lemma rerun_stale_checks_overflow_error pr t :
  base_ref_name pr ∈ SGTM_FEATURE__CHECK_RERUN_BASE_REF_NAMES cfg ->
  0 < SGTM_FEATURE__CHECK_RERUN_THRESHOLD_HOURS cfg ->
  ~ freshness_date_representable cfg now ->
  run (rerun_stale_checks pr) t = (Raise OverflowError, t).
Proof.
  intros Hbase Hthr Hrep.
  by rewrite rerun_stale_checks_unfold, decide_True, decide_False.
Qed.

Lemma rerun_stale_checks_switched_off pr t :
  base_ref_name pr ∉ SGTM_FEATURE__CHECK_RERUN_BASE_REF_NAMES cfg
  \/ SGTM_FEATURE__CHECK_RERUN_THRESHOLD_HOURS cfg <= 0 ->
  run (rerun_stale_checks pr) t = (Return false, t).
Proof.
  intros Hoff. rewrite rerun_stale_checks_unfold, decide_False; [done|].
  intros [Hbase Hthr]. destruct Hoff; [done|lia].
Qed.

(** Either the scan returns whether one of its rerequests was answered
    [True], or it raises before any call. *)
Lemma rerun_stale_checks_outcome pr t :
  (exists calls,
     run (rerun_stale_checks pr) t
     = (Return (answered rerequest_reply t calls), t ++ calls))
  \/ (exists e,
        run (rerun_stale_checks pr) t = (Raise e, t)
        /\ base_ref_name pr ∈ SGTM_FEATURE__CHECK_RERUN_BASE_REF_NAMES cfg
        /\ 0 < SGTM_FEATURE__CHECK_RERUN_THRESHOLD_HOURS cfg
        /\ (~ freshness_date_representable cfg now \/ commits pr = [])).
Proof.
  rewrite rerun_stale_checks_unfold.
  destruct (decide (base_ref_name pr ∈ SGTM_FEATURE__CHECK_RERUN_BASE_REF_NAMES cfg
                    /\ 0 < SGTM_FEATURE__CHECK_RERUN_THRESHOLD_HOURS cfg))
    as [[Hbase Hthr]|Hoff].
  2:{ left. exists []. simpl. by rewrite app_nil_r. }
  destruct (decide (freshness_date_representable cfg now)) as [Hrep|Hrep].
  2:{ right. exists OverflowError. repeat split; try done. by left. }
  destruct (commits pr) as [|first_commit rest].
  - right. exists IndexError. repeat split; try done. by right.
  - left.
    destruct (scan_check_suites_answered pr (freshness_boundary cfg now)
                (check_suites first_commit) false t) as (calls & Hrun).
    exists calls. by rewrite Hrun.
Qed.

(** X11.  Three outcomes of the scan that need no call of the client.  A scan
    that is switched off, because the base ref is not in the allowlist or
    the threshold is not positive, returns [False], also on a pull request
    without commits.  A scan that is switched on computes the freshness
    date first: when the clock minus the threshold is not a date that
    [datetime] represents, the subtraction raises [OverflowError], also on
    a pull request with commits.  Otherwise, on a pull request without
    commits, the index into the commits raises [IndexError]. *)
Theorem rerun_scan_fails_before_any_call (pr : PullRequest) (t : list Call) :
  (base_ref_name pr ∉ SGTM_FEATURE__CHECK_RERUN_BASE_REF_NAMES cfg
   \/ SGTM_FEATURE__CHECK_RERUN_THRESHOLD_HOURS cfg <= 0 ->
     run (rerun_stale_checks pr) t = (Return false, t))
  /\ (base_ref_name pr ∈ SGTM_FEATURE__CHECK_RERUN_BASE_REF_NAMES cfg ->
      0 < SGTM_FEATURE__CHECK_RERUN_THRESHOLD_HOURS cfg ->
      ~ freshness_date_representable cfg now ->
      run (rerun_stale_checks pr) t = (Raise OverflowError, t))
  /\ (base_ref_name pr ∈ SGTM_FEATURE__CHECK_RERUN_BASE_REF_NAMES cfg ->
      0 < SGTM_FEATURE__CHECK_RERUN_THRESHOLD_HOURS cfg ->
      freshness_date_representable cfg now ->
      commits pr = [] ->
      run (rerun_stale_checks pr) t = (Raise IndexError, t)).
Proof.
  split; [apply rerun_stale_checks_switched_off|].
  split; [apply rerun_stale_checks_overflow_error|].
  intros Hbase Hthr Hrep Hc. by apply rerun_stale_checks_index_error.
Qed.

(** X12.  The scan returns [True] exactly when the client answered [True] to one
    of the rerequests it issued; so it returns [False] when it issued
    none. *)
Theorem rerun_scan_returns_whether_answered (pr : PullRequest) (t : list Call)
    (did_rerun : bool) :
  returned (rerun_stale_checks pr) t = Return did_rerun ->
  did_rerun = answered rerequest_reply t (calls_issued (rerun_stale_checks pr) t)
  /\ (calls_issued (rerun_stale_checks pr) t = [] -> did_rerun = false).
Proof.
  unfold returned. intros Hret.
  destruct (rerun_stale_checks_outcome pr t) as [(calls & Hrun)|(e & Hrun & _)].
  2:{ by rewrite Hrun in Hret. }
  rewrite (calls_issued_app _ _ calls) by (by rewrite Hrun).
  rewrite Hrun in Hret. injection Hret as <-.
  split; [done|]. by intros ->.
Qed.

(** X13.  As many check runs are rerequested as scanned check suites have a stale
    check run: none when every check run is fresh or still running, and
    never more than there are check suites. *)
Theorem rerun_scan_counts_stale_suites (pr : PullRequest) (t : list Call) :
  length (calls_issued (rerun_stale_checks pr) t)
  = length (filter (has_stale (freshness_boundary cfg now)) (scanned_suites cfg now pr))
  /\ (length (calls_issued (rerun_stale_checks pr) t)
      <= length (scanned_suites cfg now pr))%nat.
Proof.
  assert (length (calls_issued (rerun_stale_checks pr) t)
          = length (filter (has_stale (freshness_boundary cfg now))
                           (scanned_suites cfg now pr))) as Hcount.
  { destruct (maybe_rerun_stale_checks_spec cfg now rerequest_reply pr t)
      as [(chosen & b & Hchosen & Hrun & _)|(e & Hrun & Hnone & _)].
    - rewrite (calls_issued_app _ _ _ (f_equal snd Hrun)), length_fmap.
      by apply chosen_count.
    - rewrite (calls_issued_app _ _ []) by (rewrite Hrun; simpl; by rewrite app_nil_r).
      by rewrite Hnone. }
  split; [done|]. rewrite Hcount. apply length_filter.
Qed.

Lemma scan_check_runs_same_repository pr pr' fb runs did_rerun t :
  repository_owner_handle pr' = repository_owner_handle pr ->
  repository_name pr' = repository_name pr ->
  run (scan_runs pr' fb runs did_rerun) t = run (scan_runs pr fb runs did_rerun) t.
Proof.
  intros Ho Hr. induction runs as [|r runs IH]; simpl; [done|].
  destruct (is_check_run_stale fb r); [|done]. by rewrite Ho, Hr.
Qed.

Lemma scan_check_suites_same_repository pr pr' fb suites did_rerun t :
  repository_owner_handle pr' = repository_owner_handle pr ->
  repository_name pr' = repository_name pr ->
  run (scan_suites pr' fb suites did_rerun) t
  = run (scan_suites pr fb suites did_rerun) t.
Proof.
  intros Ho Hr. revert did_rerun t.
  induction suites as [|suite suites IH]; intros did_rerun t; simpl; [done|].
  rewrite (scan_check_runs_same_repository pr pr') by done.
  destruct (run (scan_runs pr fb (check_runs suite) did_rerun) t) as [[b|e] t'];
    [apply IH|done].
Qed.

(** X14.  Only the first commit is looked at: the commits after it can be replaced
    by any others without a difference. *)
Theorem rerun_scan_first_commit_only (pr : PullRequest) (first_commit : Commit)
    (rest rest' : list Commit) (t : list Call) :
  commits pr = first_commit :: rest ->
  run (rerun_stale_checks (set_commits pr (first_commit :: rest'))) t
  = run (rerun_stale_checks pr) t.
Proof.
  intros Hc. rewrite !rerun_stale_checks_unfold. simpl. rewrite Hc.
  destruct (decide _); [|done]. destruct (decide _); [|done].
  by apply scan_check_suites_same_repository.
Qed.

(** X15.  The rerun on approval does nothing unless the feature is enabled and the
    pull request is open and approved; and all it ever issues are
    rerequests of stale check runs of this repository. *)
Theorem rerun_on_approval_gate (pr : PullRequest) (t : list Call) :
  (SGTM_FEATURE__CHECK_RERUN_ON_APPROVAL_ENABLED cfg = false \/ closed pr = true
   \/ merged pr = true \/ is_approved pr = false ->
     run (rerun_on_approval pr) t = (Return false, t))
  /\ Forall (fun c => exists r, c = rerun_call pr r
                                /\ stale (freshness_boundary cfg now) r)
            (calls_issued (rerun_on_approval pr) t).
Proof.
  unfold maybe_rerun_stale_checks_on_approved_pull_request, _pull_request_is_open.
  split.
  - intros [ -> | [ -> | [ -> | -> ] ] ]; [done|..];
      destruct (SGTM_FEATURE__CHECK_RERUN_ON_APPROVAL_ENABLED cfg); try done;
      simpl; rewrite ?andb_false_r; done.
  - destruct (_ && _ && _).
    2:{ rewrite (calls_issued_app _ _ []) by (simpl; by rewrite app_nil_r).
        constructor. }
    destruct (maybe_rerun_stale_checks_spec cfg now rerequest_reply pr t)
      as [(chosen & b & Hchosen & Hrun & _)|(e & Hrun & _)].
    + rewrite (calls_issued_app _ _ _ (f_equal snd Hrun)).
      apply Forall_fmap. eapply Forall_impl; [by eapply chosen_stale|].
      intros r Hr. by exists r.
    + rewrite (calls_issued_app _ _ []) by (rewrite Hrun; simpl; by rewrite app_nil_r).
      constructor.
Qed.

End ScanMore.

(** ** More on automerge *)

Section AutomergeMore.
Variable cfg : Config.
Variable now : datetime.
Variable rerequest_reply : list Call -> string -> string -> Z -> bool.

Local Abbreviation automerge :=
  (maybe_automerge_pull_request_and_rerun_stale_checks cfg now rerequest_reply).
Local Abbreviation rerun_stale_checks := (_maybe_rerun_stale_checks cfg now rerequest_reply).

Lemma selected_label_coded_cases pr :
  (value IMMEDIATELY ∈ labels pr
   /\ selected_label CODED_PRECEDENCE pr = Some IMMEDIATELY)
  \/ ((value IMMEDIATELY ∉ labels pr) /\ value AFTER_TESTS ∈ labels pr
      /\ selected_label CODED_PRECEDENCE pr = Some AFTER_TESTS)
  \/ ((value IMMEDIATELY ∉ labels pr) /\ (value AFTER_TESTS ∉ labels pr)
      /\ value AFTER_TESTS_AND_APPROVAL ∈ labels pr
      /\ selected_label CODED_PRECEDENCE pr = Some AFTER_TESTS_AND_APPROVAL)
  \/ ((value IMMEDIATELY ∉ labels pr) /\ (value AFTER_TESTS ∉ labels pr)
      /\ (value AFTER_TESTS_AND_APPROVAL ∉ labels pr)
      /\ value AFTER_APPROVAL ∈ labels pr
      /\ selected_label CODED_PRECEDENCE pr = Some AFTER_APPROVAL)
  \/ (~ has_automerge_label pr /\ selected_label CODED_PRECEDENCE pr = None).
Proof.
  unfold selected_label, CODED_PRECEDENCE. cbn [list_find].
  destruct (decide (value IMMEDIATELY ∈ labels pr)) as [Hi|Hi]; [by left|].
  destruct (decide (value AFTER_TESTS ∈ labels pr)) as [Ht|Ht]; [by right; left|].
  destruct (decide (value AFTER_TESTS_AND_APPROVAL ∈ labels pr)) as [Hta|Hta];
    [by right; right; left|].
  destruct (decide (value AFTER_APPROVAL ∈ labels pr)) as [Ha|Ha];
    [by right; right; right; left|].
  right; right; right; right. split; [|done].
  intros [[] Hl]; done.
Qed.

Lemma automerge_not_ready pr arg t :
  ready_for_automerge cfg pr = false ->
  run (automerge pr arg) t = (Return false, t).
Proof.
  intros Hready.
  destruct (automerge_cases cfg now rerequest_reply pr arg t)
    as (rerun & reruns & Hrerun & _ & Hrun).
  unfold rerun_attempt in Hrerun. rewrite Hready in Hrerun.
  cbn [andb] in Hrerun. rewrite run_ret in Hrerun.
  injection Hrerun as <- Ht. rewrite Hrun, Hready. cbn [andb]. by rewrite <- Ht.
Qed.

(** X16.  A pass leaves a pull request alone, returning [False] without a single
    call to the client (no merge, no rerun of checks), when the pull request
    has conflicts; when it carries none of the four labels; when its merge
    state is unknown, or it is not approved, or its build failed, and the
    labels it carries ask for that condition. *)
Theorem automerge_leaves_alone (pr : PullRequest) (arg : bool) (t : list Call) :
  mergeable pr = CONFLICTING
  \/ ~ has_automerge_label pr
  \/ ((value IMMEDIATELY ∉ labels pr) /\ mergeable pr = UNKNOWN)
  \/ ((value IMMEDIATELY ∉ labels pr) /\ (value AFTER_TESTS ∉ labels pr)
      /\ is_approved pr = false)
  \/ ((value IMMEDIATELY ∉ labels pr)
      /\ (value AFTER_TESTS ∈ labels pr \/ value AFTER_TESTS_AND_APPROVAL ∈ labels pr)
      /\ is_build_successful pr = false) ->
  run (automerge pr arg) t = (Return false, t).
Proof.
  intros Hwhy. apply automerge_not_ready. unfold ready_for_automerge.
  apply andb_false_iff. right.
  destruct (selected_label_coded_cases pr)
    as [(Hi & ->)|[(Hi & Ht & ->)|[(Hi & Ht & Hta & ->)
         |[(Hi & Ht & Hta & Ha & ->)|(Hnone & ->)]]]];
    [| | | |done]; unfold readiness, is_mergeable;
    destruct Hwhy as [Hc|[Hn|[[Hni Hu]|[(Hni & Hnt & Hna)|(Hni & Hl & Hb)]]]];
    rewrite ?Hc, ?Hu, ?Hna, ?Hb; cbn [andb]; rewrite ?andb_false_r;
    try done; try (exfalso; apply Hn; by eexists); tauto.
Qed.

(** X17.  What a pass issues: rerequests of stale check runs first, then at most
    one merge, which is the last call and comes with the result [True]. *)
Theorem automerge_calls_shape (pr : PullRequest) (arg : bool) (t : list Call) :
  exists reruns : list CheckRun,
    Forall (stale (freshness_boundary cfg now)) reruns
    /\ snd (run (automerge pr arg) t)
       = t ++ (rerun_call pr <$> reruns)
           ++ match returned (automerge pr arg) t with
              | Return true => [merge_call pr]
              | _ => []
              end.
Proof.
  rewrite automerge_by_coded_precedence. unfold returned.
  rewrite automerge_by_coded_precedence.
  unfold automerge_by_precedence.
  destruct (negb _ || closed pr || merged pr).
  { exists []. split; [constructor|]. simpl. by rewrite app_nil_r. }
  destruct (selected_label CODED_PRECEDENCE pr) as [l|].
  2:{ exists []. split; [constructor|]. simpl. by rewrite app_nil_r. }
  rewrite run_bind.
  destruct (requires_tests l && readiness l pr) eqn:Hscan.
  - apply andb_true_iff in Hscan as [_ ->].
    destruct (maybe_rerun_stale_checks_spec cfg now rerequest_reply pr t)
      as [(chosen & b & Hchosen & -> & _)|(e & -> & _)].
    + exists (concat (option_list <$> chosen)).
      split; [by eapply chosen_stale|].
      destruct b; simpl; [by rewrite app_nil_r|by rewrite <- app_assoc].
    + exists []. split; [constructor|]. simpl. by rewrite app_nil_r.
  - rewrite run_ret. exists []. split; [constructor|].
    destruct (readiness l pr); simpl; [done|by rewrite app_nil_r].
Qed.

(** X18.  The label "merge immediately" overrides the others: an open pull
    request that carries it is merged unless it has conflicts, whatever its
    build, its approval and its other labels are, and its checks are not
    looked at. *)
Theorem automerge_immediately (pr : PullRequest) (arg : bool) (t : list Call) :
  SGTM_FEATURE__AUTOMERGE_ENABLED cfg = true ->
  closed pr = false ->
  merged pr = false ->
  value IMMEDIATELY ∈ labels pr ->
  run (automerge pr arg) t
  = if decide (mergeable pr = CONFLICTING) then (Return false, t)
    else (Return true, t ++ [merge_call pr]).
Proof.
  intros He Hc Hm Hi. rewrite automerge_by_coded_precedence.
  unfold automerge_by_precedence. rewrite He, Hc, Hm. cbn [negb orb].
  destruct (selected_label_coded_cases pr) as [(_ & ->)|Hother].
  2:{ exfalso. destruct Hother as [(H & _)|[(H & _)|[(H & _)|(H & _)]]];
        [done..|]. apply H. by eexists. }
  rewrite run_bind. cbn [requires_tests andb readiness]. rewrite run_ret.
  destruct (mergeable pr); by vm_compute.
Qed.

(** X19.  A ready pull request with a commit, none of whose scanned check suites
    has a stale check run, is merged by the pass, and nothing else is
    called, provided the clock minus the threshold is a date that
    [datetime] represents; when it is not, the scan of a pull request that
    needs one raises [OverflowError] instead. *)
Theorem automerge_merges_when_fresh (pr : PullRequest) (arg : bool) (t : list Call) :
  ready_for_automerge cfg pr = true ->
  commits pr <> [] ->
  freshness_date_representable cfg now ->
  Forall (fun suite => ~ has_stale (freshness_boundary cfg now) suite)
         (scanned_suites cfg now pr) ->
  run (automerge pr arg) t = (Return true, t ++ [merge_call pr]).
Proof.
  intros Hready Hcommits Hrep Hfresh.
  destruct (automerge_cases cfg now rerequest_reply pr arg t)
    as (rerun & reruns & Hrerun & _ & Hrun).
  assert (run (rerun_attempt cfg now rerequest_reply pr) t = (Return false, t))
    as Hnone.
  { unfold rerun_attempt. destruct (_ && _); [|done].
    destruct (maybe_rerun_stale_checks_spec cfg now rerequest_reply pr t)
      as [(chosen & b & Hchosen & Hscan & Hb)
          |(e & _ & _ & _ & _ & [[_ Hno]|(_ & _ & Hc)])]; [|done..].
    assert (Forall (fun o => o = None) chosen) as Hall.
    { clear Hscan Hb. induction Hchosen as [|suite o suites chosen Ho _ IH];
        [constructor|].
      apply Forall_cons in Hfresh as [Hs Hfresh]. constructor; [|by apply IH].
      destruct o as [r|]; [|done]. exfalso. apply Hs.
      apply (suite_rerun_is_Some _ _ _ Ho). by eexists. }
    rewrite Hscan, (Hb Hall). f_equal.
    assert (concat (option_list <$> chosen) = []) as ->;
      [|simpl; by rewrite app_nil_r].
    clear -Hall. induction Hall as [|o chosen -> _ IH]; [done|].
    by rewrite fmap_cons. }
  rewrite Hnone in Hrerun. injection Hrerun as <- Ht.
  assert (rerun_call pr <$> reruns = []) as Hnil.
  { apply (app_inv_head t). by rewrite app_nil_r, <- Ht. }
  by rewrite Hrun, Hready, Hnil.
Qed.

(** X20.  A failure of the scan is a failure of the pass.  On an open pull
    request that is ready under a label that asks for tests, with the rerun
    of stale checks switched on for its base ref, the pass raises
    [OverflowError] when the clock minus the threshold is not a date that
    [datetime] represents, and [IndexError] when it is one and the pull
    request has no commit.  Nothing has been called then, the merge
    included. *)
Theorem automerge_propagates_scan_failure (pr : PullRequest) (arg : bool)
    (t : list Call) :
  SGTM_FEATURE__AUTOMERGE_ENABLED cfg = true ->
  closed pr = false ->
  merged pr = false ->
  value IMMEDIATELY ∉ labels pr ->
  value AFTER_TESTS ∈ labels pr
  \/ (value AFTER_TESTS_AND_APPROVAL ∈ labels pr /\ is_approved pr = true) ->
  is_build_successful pr = true ->
  mergeable pr = MERGEABLE ->
  base_ref_name pr ∈ SGTM_FEATURE__CHECK_RERUN_BASE_REF_NAMES cfg ->
  0 < SGTM_FEATURE__CHECK_RERUN_THRESHOLD_HOURS cfg ->
  (~ freshness_date_representable cfg now ->
     run (automerge pr arg) t = (Raise OverflowError, t))
  /\ (freshness_date_representable cfg now -> commits pr = [] ->
      run (automerge pr arg) t = (Raise IndexError, t)).
Proof.
  intros He Hc Hm Hi Hlabel Hbuild Hmg Hbase Hthr.
  assert (forall e,
            run (rerun_stale_checks pr) t = (Raise e, t) ->
            run (automerge pr arg) t = (Raise e, t)) as Hpass.
  { intros e Hscan. rewrite automerge_by_coded_precedence.
    unfold automerge_by_precedence. rewrite He, Hc, Hm. cbn [negb orb].
    destruct (selected_label_coded_cases pr)
      as [(Hi' & _)|[(_ & Ht & ->)|[(_ & Ht & Hta & ->)
           |[(_ & Ht & Hta & _ & _)|(Hnone & _)]]]].
    - done.
    - rewrite run_bind. cbn [requires_tests andb readiness]. unfold is_mergeable.
      rewrite Hbuild, Hmg. cbn [andb].
      rewrite bool_decide_eq_true_2 by done. by rewrite Hscan.
    - destruct Hlabel as [?|[_ Happ]]; [done|].
      rewrite run_bind. cbn [requires_tests andb readiness]. unfold is_mergeable.
      rewrite Hbuild, Hmg, Happ. cbn [andb].
      rewrite bool_decide_eq_true_2 by done. cbn [andb]. by rewrite Hscan.
    - by destruct Hlabel as [?|[? _]].
    - exfalso. destruct Hlabel as [?|[? _]]; apply Hnone; by eexists. }
  split.
  - intros Hrep. apply Hpass.
    by apply rerun_stale_checks_overflow_error.
  - intros Hrep Hcommits. apply Hpass.
    by apply rerun_stale_checks_index_error.
Qed.

End AutomergeMore.

(** ** Text *)

Lemma str_app_cons a s s' : String a s +:+ s' = String a (s +:+ s').
Proof. reflexivity. Qed.

Lemma str_app_nil_l s : "" +:+ s = s.
Proof. reflexivity. Qed.

Lemma str_app_nil_r s : s +:+ "" = s.
Proof. induction s as [|a s IH]; [done|]. by rewrite str_app_cons, IH. Qed.

Lemma str_app_assoc s1 s2 s3 : (s1 +:+ s2) +:+ s3 = s1 +:+ s2 +:+ s3.
Proof.
  induction s1 as [|a s1 IH]; [done|]. by rewrite !str_app_cons, IH.
Qed.

Lemma str_length_app s1 s2 :
  String.length (s1 +:+ s2) = (String.length s1 + String.length s2)%nat.
Proof.
  induction s1 as [|a s1 IH]; [done|]. rewrite str_app_cons. simpl. by rewrite IH.
Qed.

Lemma str_app_inv_tail s1 s2 s : s1 +:+ s = s2 +:+ s -> s1 = s2.
Proof.
  revert s2. induction s1 as [|a s1 IH]; intros [|b s2] Heq; [done|..].
  - apply (f_equal String.length) in Heq.
    rewrite str_app_nil_l, str_length_app in Heq. simpl in Heq. lia.
  - apply (f_equal String.length) in Heq.
    rewrite str_app_nil_l, str_length_app in Heq. simpl in Heq. lia.
  - rewrite !str_app_cons in Heq. injection Heq as -> Heq. f_equal. by apply IH.
Qed.

Lemma strip_prefix_Some p s r : strip_prefix p s = Some r <-> s = p +:+ r.
Proof.
  revert s. induction p as [|a p IH]; intros s; simpl.
  - rewrite str_app_nil_l. split; congruence.
  - rewrite str_app_cons. destruct s as [|b s]; [done|].
    case_bool_decide as Hab.
    + subst b. rewrite IH. split; [by intros ->|by intros [= ->]].
    + split; [done|]. intros [= ? _]. done.
Qed.

Lemma match_here_iff items s :
  match_here items s = true
  <-> exists phrase rest, phrase ∈ expansions items /\ s = phrase +:+ rest.
Proof.
  revert s. induction items as [|[p|] items IH]; intros s;
    cbn [match_here expansions].
  - split; [|done]. intros _. exists "", s. split; [left|done].
  - destruct (strip_prefix p s) as [s'|] eqn:Hp.
    + apply strip_prefix_Some in Hp as ->. rewrite IH. split.
      * intros (ph & rest & Hph & ->). exists (p +:+ ph), rest.
        split; [|by rewrite str_app_assoc].
        apply list_elem_of_fmap. by exists ph.
      * intros (ph & rest & (ph' & -> & Hph')%list_elem_of_fmap & Heq).
        rewrite str_app_assoc in Heq. apply (inj _) in Heq as ->.
        by exists ph', rest.
    + split; [done|].
      intros (ph & rest & (ph' & -> & Hph')%list_elem_of_fmap & ->).
      rewrite str_app_assoc in Hp.
      assert (strip_prefix p (p +:+ ph' +:+ rest) = Some (ph' +:+ rest)) as Hp'
        by (by apply strip_prefix_Some).
      congruence.
  - rewrite orb_true_iff, existsb_exists, IH. split.
    + intros [(w & Hw%list_elem_of_In & Hm)|(ph & rest & Hph & ->)].
      * destruct (strip_prefix w s) as [s'|] eqn:Hp; [|done].
        apply strip_prefix_Some in Hp as ->.
        apply IH in Hm as (ph & rest & Hph & ->).
        exists (w +:+ ph), rest. split; [|by rewrite str_app_assoc].
        apply elem_of_app. left. apply list_elem_of_bind. exists w.
        split; [|done]. apply list_elem_of_fmap. by exists ph.
      * exists ph, rest. split; [|done]. apply elem_of_app. by right.
    + intros (ph & rest & [Hph|Hph]%elem_of_app & ->).
      * apply list_elem_of_bind in Hph
          as (w & (ph' & -> & Hph')%list_elem_of_fmap & Hw).
        left. exists w. split; [by apply list_elem_of_In|].
        rewrite str_app_assoc.
        assert (strip_prefix w (w +:+ ph' +:+ rest) = Some (ph' +:+ rest)) as ->
          by (by apply strip_prefix_Some).
        apply IH. by exists ph', rest.
      * right. by exists ph, rest.
Qed.

Lemma elem_of_concat {A} (x : A) (ls : list (list A)) :
  x ∈ concat ls <-> exists l, x ∈ l /\ l ∈ ls.
Proof.
  induction ls as [|l ls IH]; simpl.
  - split; [by intros ?%elem_of_nil|]. by intros (l & _ & ?%elem_of_nil).
  - rewrite elem_of_app, IH. split.
    + intros [Hx|(l' & Hx & Hl')]; [exists l|exists l']; split; try done;
        [left|by right].
    + intros (l' & Hx & [->|Hl']%elem_of_cons); [by left|].
      right. by exists l'.
Qed.

Lemma re_search_iff alternatives s :
  re_search alternatives s = true
  <-> exists before phrase after,
        phrase ∈ concat (expansions <$> alternatives)
        /\ s = before +:+ phrase +:+ after.
Proof.
  assert (forall s, existsb (fun alt => match_here alt s) alternatives = true
                    <-> exists phrase after,
                          phrase ∈ concat (expansions <$> alternatives)
                          /\ s = phrase +:+ after) as Hhere.
  { intros s'. rewrite existsb_exists. split.
    - intros (alt & Halt%list_elem_of_In & (ph & rest & Hph & ->)%match_here_iff).
      exists ph, rest. split; [|done]. apply elem_of_concat.
      exists (expansions alt). split; [done|]. apply list_elem_of_fmap. by exists alt.
    - intros (ph & rest & (l & Hph & (alt & -> & Halt)%list_elem_of_fmap)%elem_of_concat
              & ->).
      exists alt. split; [by apply list_elem_of_In|].
      apply match_here_iff. by exists ph, rest. }
  induction s as [|a s IH]; simpl; rewrite orb_true_iff, Hhere.
  - split.
    + intros [(ph & after & Hph & Heq)|[=]]. by exists "", ph, after.
    + intros ([|b before] & ph & after & Hph & Heq); [|done].
      left. by exists ph, after.
  - rewrite IH. split.
    + intros [(ph & after & Hph & Heq)|(before & ph & after & Hph & ->)].
      * by exists "", ph, after.
      * by exists (String a before), ph, after.
    + intros ([|b before] & ph & after & Hph & Heq).
      * left. by exists ph, after.
      * rewrite str_app_cons in Heq. injection Heq as <- ->.
        right. by exists before, ph, after.
Qed.

(** X21.  A body is an approval marker exactly when its lower-case form contains
    one of the approval phrases, anywhere: inside a word or a longer
    sentence as well. *)
Theorem approval_marker_iff_contains_phrase (str_lower : string -> string)
    (body : string) :
  _is_approval_comment_body str_lower body = true
  <-> exists before phrase after,
        phrase ∈ approval_phrases
        /\ str_lower body = before +:+ phrase +:+ after.
Proof.
  unfold _is_approval_comment_body. rewrite re_search_iff.
  assert (concat (expansions <$> APPROVAL_REGEX) = approval_phrases) as ->
    by (by vm_compute).
  done.
Qed.

(** X22.  The note on the Asana task is appended behind the unchanged body, so
    the result is longer than the body by the note; two results are equal
    only if both the bodies and the task URLs are, as soon as one of the two
    is. *)
Theorem inject_asana_task_appends (body task_url body' task_url' : string) :
  String.length (inject_asana_task_into_pull_request_body body task_url)
  = (String.length body + String.length task_url + 48)%nat
  /\ (exists note, note <> ""
                   /\ inject_asana_task_into_pull_request_body body task_url
                      = body +:+ note)
  /\ (inject_asana_task_into_pull_request_body body task_url
      = inject_asana_task_into_pull_request_body body' task_url' ->
      (body = body' <-> task_url = task_url')).
Proof.
  unfold inject_asana_task_into_pull_request_body. split; [|split].
  - rewrite !str_length_app. simpl. lia.
  - eexists. split; [|by rewrite str_app_assoc]. done.
  - intros Heq. split.
    + intros <-. rewrite !str_app_assoc in Heq.
      do 5 apply (inj _) in Heq. by apply str_app_inv_tail in Heq.
    + intros <-. by do 2 apply str_app_inv_tail in Heq.
Qed.

(** ** Mentions and participants *)

Lemma take_handle_spec s :
  all_chars is_handle_char (take_handle s) = true
  /\ exists rest, s = take_handle s +:+ rest.
Proof.
  induction s as [|a s [IH1 [rest IH2]]]; simpl.
  - split; [done|]. by exists "".
  - destruct (is_handle_char a) eqn:Ha; simpl.
    + rewrite Ha, IH1. split; [done|]. exists rest.
      by rewrite str_app_cons, <- IH2.
    + split; [done|]. by eexists.
Qed.

Lemma last_byte_snoc s c : last_byte (s +:+ String c "") = Some c.
Proof.
  induction s as [|a s IH]; [done|].
  rewrite str_app_cons. simpl. rewrite IH.
  by destruct (s +:+ String c "") eqn:E; [destruct s|].
Qed.

Lemma is_ascii_word_char_ascii c :
  is_ascii_word_char c = true -> (N_of_ascii c < 128)%N.
Proof.
  unfold is_ascii_word_char, is_ascii_alnum.
  rewrite !orb_true_iff, !bool_decide_eq_true.
  intros [[[H|H]|H]| ->]; [lia..|by vm_compute].
Qed.

Section MentionsFacts.
Variable unicode_word_before : string -> bool.

Local Abbreviation scan := (scan_mentions unicode_word_before).
Local Abbreviation mentions := (_extract_mentions unicode_word_before).

Lemma scan_mentions_sound before skip s m :
  m ∈ scan before skip s ->
  m <> "" /\ all_chars is_handle_char m = true
  /\ exists b a, s = b +:+ "@" +:+ m +:+ a.
Proof.
  revert before skip. induction s as [|c s IH]; intros before skip Hm; simpl in Hm.
  { by apply elem_of_nil in Hm. }
  assert (forall before' skip',
            m ∈ scan before' skip' s ->
            m <> "" /\ all_chars is_handle_char m = true
            /\ exists b a, String c s = b +:+ "@" +:+ m +:+ a) as Hlater.
  { intros before' skip' Hin.
    destruct (IH _ _ Hin) as (H1 & H2 & b & a & ->).
    split; [done|]. split; [done|]. by exists (String c b), a. }
  destruct skip as [|skip]; [|by eapply Hlater].
  destruct (bool_decide (c = "@"%char) && negb (word_before unicode_word_before before))
    eqn:Hat; [|by eapply Hlater].
  apply andb_true_iff in Hat as [Hc%bool_decide_eq_true _]. subst c.
  case_bool_decide as Hh; [by eapply Hlater|].
  apply elem_of_cons in Hm as [->|Hm]; [|by eapply Hlater].
  destruct (take_handle_spec s) as [Hall [rest Hrest]].
  split; [done|]. split; [done|]. exists "", rest.
  by rewrite str_app_nil_l, str_app_cons, str_app_nil_l, <- Hrest.
Qed.

(** X23.  Every mention found is a handle: not empty, made of letters, digits,
    underscores and hyphens, and written in the text behind an [@]. *)
Theorem mentions_are_handles (text m : string) :
  m ∈ mentions text ->
  m <> ""
  /\ all_chars is_handle_char m = true
  /\ exists before after, text = before +:+ "@" +:+ m +:+ after.
Proof. apply scan_mentions_sound. Qed.

Lemma scan_mentions_length before skip s :
  (length (scan before skip s) <= count_char "@" s)%nat.
Proof.
  revert before skip. induction s as [|c s IH]; intros before skip; simpl; [lia|].
  destruct skip as [|skip].
  2:{ specialize (IH (before +:+ String c "") skip). lia. }
  destruct (decide (c = "@"%char)) as [->|Hc].
  2:{ rewrite !bool_decide_eq_false_2 by done. simpl.
      specialize (IH (before +:+ String c "") 0%nat). lia. }
  rewrite !bool_decide_eq_true_2 by done. simpl.
  destruct (negb _).
  2:{ specialize (IH (before +:+ "@") 0%nat). lia. }
  destruct (bool_decide (take_handle s = "")).
  - specialize (IH (before +:+ "@") 0%nat). lia.
  - simpl. specialize (IH (before +:+ "@") (String.length (take_handle s))). lia.
Qed.

(** X24.  There are no more mentions than the text has [@]s; a text without [@]
    mentions nobody. *)
Theorem mentions_bounded_by_ats (text : string) :
  (length (mentions text) <= count_char "@" text)%nat
  /\ (count_char "@" text = 0%nat -> mentions text = []).
Proof.
  pose proof (scan_mentions_length "" 0 text) as Hlen.
  split; [done|]. intros Hz. unfold _extract_mentions.
  destruct (scan "" 0 text); [done|]. simpl in Hlen. lia.
Qed.

Lemma scan_mentions_follow_word before s :
  ats_follow_word (last_byte before) s = true -> scan before 0 s = [].
Proof.
  revert before. induction s as [|c s IH]; intros before Hok; simpl; [done|].
  simpl in Hok. apply andb_true_iff in Hok as [Hc Hs].
  assert (scan (before +:+ String c "") 0 s = []) as Hnext.
  { apply IH. by rewrite last_byte_snoc. }
  destruct (bool_decide (c = "@"%char)) eqn:Hat; [|done]. simpl.
  destruct (last_byte before) as [p|] eqn:Hp; [|done].
  unfold word_before. rewrite Hp.
  rewrite bool_decide_eq_true_2 by (by apply is_ascii_word_char_ascii).
  by rewrite Hc.
Qed.

(** X25.  An [@] that stands directly behind a letter, a digit or an underscore,
    as in a mail address, is no mention: a text with such [@]s only
    mentions nobody. *)
Theorem mentions_skip_addresses (text : string) :
  ats_follow_word None text = true -> mentions text = [].
Proof. apply (scan_mentions_follow_word ""). Qed.

Lemma take_handle_exact h after :
  all_chars is_handle_char h = true ->
  take_handle after = "" ->
  take_handle (h +:+ after) = h.
Proof.
  intros Hh Hafter. induction h as [|a h IH]; [done|].
  simpl in Hh. apply andb_true_iff in Hh as [Ha Hh].
  rewrite str_app_cons. simpl. by rewrite Ha, IH.
Qed.

Lemma scan_mentions_no_at before b s :
  count_char "@" b = 0%nat ->
  scan before 0 (b +:+ s) = scan (before +:+ b) 0 s.
Proof.
  revert before. induction b as [|c b IH]; intros before Hb.
  - by rewrite str_app_nil_l, str_app_nil_r.
  - simpl in Hb. rewrite str_app_cons. simpl.
    destruct (decide (c = "@"%char)) as [->|Hc].
    { by rewrite bool_decide_eq_true_2 in Hb. }
    rewrite !bool_decide_eq_false_2 in * by done. simpl.
    rewrite IH by lia. f_equal.
    change (String c b) with (String c "" +:+ b). by rewrite str_app_assoc.
Qed.

(** X26.  The first [@] of a text, when it does not stand behind a word character
    and handle characters follow it, gives the first mention: these handle
    characters, up to the first character that is none. *)
Theorem mentions_finds_first (before handle after : string) :
  count_char "@" before = 0%nat ->
  word_before unicode_word_before before = false ->
  handle <> "" ->
  all_chars is_handle_char handle = true ->
  take_handle after = "" ->
  exists more, mentions (before +:+ "@" +:+ handle +:+ after) = handle :: more.
Proof.
  intros Hb Hw Hne Hh Hafter. unfold _extract_mentions.
  rewrite scan_mentions_no_at by done. rewrite str_app_nil_l.
  rewrite str_app_cons, str_app_nil_l. simpl.
  rewrite Hw. simpl. rewrite take_handle_exact by done.
  rewrite bool_decide_eq_false_2 by done. by eexists.
Qed.

Variable review_comments : Review -> list Comment.
Variable assignees : PullRequest -> list string.
Variable requested_reviewers : PullRequest -> bool -> list string.
Variable DISABLE_GITHUB_TEAM_SUBSCRIPTION : bool.

Lemma list_of_set_spec l :
  NoDup (list_of_set l) /\ forall h, h ∈ list_of_set l <-> h ∈ l.
Proof.
  unfold list_of_set. split; [apply NoDup_elements|].
  intros h. by rewrite elem_of_elements, elem_of_list_to_set.
Qed.

(** X27.  The participants of a review are its author and whoever its body or the
    body of one of its comments mentions, each once; the author of a comment
    of the review is a participant only if that holds of them. *)
Theorem review_participants_spec (review : Review) :
  NoDup (review_participants_and_mentions unicode_word_before review_comments review)
  /\ forall h,
       h ∈ review_participants_and_mentions unicode_word_before review_comments review
       <-> h = login (review_author review)
           \/ h ∈ mentions (review_body review)
           \/ exists c, c ∈ review_comments review /\ h ∈ mentions (comment_body c).
Proof.
  unfold review_participants_and_mentions.
  destruct (list_of_set_spec
              ([login (review_author review)]
               ++ (review_text ← [review_body review]
                                  ++ (comment_body <$> review_comments review);
                   mentions review_text))) as [Hnd Hin].
  split; [done|]. intros h. rewrite Hin.
  rewrite elem_of_app, list_elem_of_singleton, list_elem_of_bind.
  split.
  - intros [->|(text & Hh & [->%list_elem_of_singleton|Htext]%elem_of_app)];
      [by left|by right; left|].
    apply list_elem_of_fmap in Htext as (c & -> & Hc). right; right. by exists c.
  - intros [->|[Hh|(c & Hc & Hh)]]; [by left|right..].
    + exists (review_body review). split; [done|]. apply elem_of_app. left. left.
    + exists (comment_body c). split; [done|]. apply elem_of_app. right.
      apply list_elem_of_fmap. by exists c.
Qed.

(** X28.  The participants of a pull request are its author, its assignees, its
    requested reviewers (with the members of requested teams unless the team
    subscription is disabled) and whoever its body mentions, each once and
    never the empty handle. *)
Theorem pull_request_participants_spec (pr : PullRequest) :
  let participants :=
    pull_request_participants unicode_word_before assignees requested_reviewers
      DISABLE_GITHUB_TEAM_SUBSCRIPTION pr in
  NoDup participants
  /\ ("" ∉ participants)
  /\ forall h,
       h ∈ participants
       <-> h <> ""
           /\ (h = author_handle pr
               \/ h ∈ assignees pr
               \/ h ∈ requested_reviewers pr (negb DISABLE_GITHUB_TEAM_SUBSCRIPTION)
               \/ h ∈ mentions (body pr)).
Proof.
  unfold pull_request_participants, _pull_request_body_mentions.
  match goal with |- context [list_of_set ?l] =>
    destruct (list_of_set_spec l) as [Hnd Hin] end.
  cbn zeta.
  assert (forall h,
            h ∈ list_of_set
                  (filter (fun gh_handle => gh_handle <> "")
                     ([author_handle pr] ++ assignees pr
                      ++ requested_reviewers pr (negb DISABLE_GITHUB_TEAM_SUBSCRIPTION)
                      ++ mentions (body pr)))
            <-> h <> ""
                /\ (h = author_handle pr
                    \/ h ∈ assignees pr
                    \/ h ∈ requested_reviewers pr (negb DISABLE_GITHUB_TEAM_SUBSCRIPTION)
                    \/ h ∈ mentions (body pr))) as Hspec.
  { intros h. rewrite Hin, list_elem_of_filter, !elem_of_app, list_elem_of_singleton.
    done. }
  split; [done|]. split; [|done].
  intros Hempty. by apply Hspec in Hempty as [? _].
Qed.

End MentionsFacts.

(** ** The further properties on concrete inputs *)

Lemma approved_before_merging_is_corroborated_witness :
  exists t r,
    merged_at merged_after_followup_approval = Some t
    /\ r ∈ reviews merged_after_followup_approval
    /\ review_state r = APPROVED_REVIEW
    /\ submitted_at r < t
    /\ ~ needs_followup example_config (login (review_author r)).
Proof.
  apply (approved_before_merging_is_corroborated example_config
           merged_after_followup_approval).
  reflexivity.
Defined.

Lemma needs_followup_only_for_followup_approval_witness :
  (exists t latest,
     merged_at approved_by_followup_alone = Some t
     /\ latest ∈ reviews approved_by_followup_alone
     /\ review_state latest = APPROVED_REVIEW
     /\ submitted_at latest < t
     /\ needs_followup example_config (login (review_author latest))
     /\ forall r, r ∈ reviews approved_by_followup_alone -> qualifies_before t r ->
                  submitted_at r <= submitted_at latest)
  /\ pull_request_approved_before_merging config_without_followup
       approved_by_followup_alone <> Return NEEDS_FOLLOWUP.
Proof.
  split.
  - apply (proj1 (needs_followup_only_for_followup_approval example_config
                    approved_by_followup_alone)).
    reflexivity.
  - apply (proj2 (needs_followup_only_for_followup_approval config_without_followup
                    approved_by_followup_alone)).
    reflexivity.
Defined.

Lemma later_changes_requested_vetoes_witness :
  pull_request_approved_before_merging example_config changes_requested_last
  = Return NO.
Proof.
  apply (later_changes_requested_vetoes example_config changes_requested_last 100
           changes_by_dave); try reflexivity.
  - right. left.
  - intros a Ha Hstate _.
    apply elem_of_cons in Ha as [->|Ha]; [reflexivity|].
    apply list_elem_of_singleton in Ha as ->. discriminate Hstate.
Defined.

Lemma later_approval_overrides_witness :
  pull_request_approved_before_merging example_config merged_after_followup_approval
  = Return APPROVED.
Proof.
  apply (later_approval_overrides example_config merged_after_followup_approval 100
           approval_by_bob); try reflexivity.
  - right. right. left.
  - by vm_compute.
  - intros c Hc Hstate Hlt.
    apply elem_of_cons in Hc as [->|Hc]; [discriminate Hstate|].
    apply elem_of_cons in Hc as [->|Hc]; [discriminate Hlt|].
    apply list_elem_of_singleton in Hc as ->. discriminate Hstate.
Defined.

Lemma approved_before_merging_ignores_other_reviews_witness :
  pull_request_approved_before_merging example_config
    (set_reviews merged_after_followup_approval
       ([approval_by_followup] ++ [approval_by_bob]))
  = pull_request_approved_before_merging example_config
      merged_after_followup_approval.
Proof.
  apply (approved_before_merging_ignores_other_reviews example_config
           merged_after_followup_approval [approval_by_followup]
           changes_by_carol_after_merge [approval_by_bob]).
  - reflexivity.
  - right. exists 100. split; [reflexivity|discriminate].
Defined.

Lemma approved_before_merging_order_independent_witness :
  pull_request_approved_before_merging example_config
    (set_reviews merged_after_followup_approval
       [approval_by_bob; changes_by_carol_after_merge; approval_by_followup])
  = pull_request_approved_before_merging example_config
      merged_after_followup_approval.
Proof.
  apply (approved_before_merging_order_independent example_config
           merged_after_followup_approval).
  - by apply (bool_decide_unpack _).
  - by apply (bool_decide_unpack _).
Defined.

Lemma approved_after_merging_monotone_witness :
  pull_request_approved_after_merging example_config ascii_lower
    (set_comments approved_by_comment_after_merge
       [comment_before_merge; comment_by_author; comment_by_bob])
  = true.
Proof.
  apply (approved_after_merging_monotone example_config ascii_lower
           approved_by_comment_after_merge); try reflexivity.
  - intros c Hc. by right.
  - intros r Hr. exact Hr.
Defined.

Lemma approved_after_merging_order_independent_witness :
  pull_request_approved_after_merging example_config ascii_lower
    (set_comments approved_by_comment_after_merge
       [comment_by_bob; comment_by_author; comment_by_bob])
  = pull_request_approved_after_merging example_config ascii_lower
      approved_by_comment_after_merge.
Proof.
  apply (approved_after_merging_order_independent example_config ascii_lower
           approved_by_comment_after_merge); try reflexivity.
  intros c. simpl. change (c ∈ [comment_by_author; comment_by_bob]
                           <-> c ∈ [comment_by_bob; comment_by_author; comment_by_bob]).
  rewrite !elem_of_cons, elem_of_nil. tauto.
Defined.

Lemma approved_after_merging_ignores_premerge_witness :
  pull_request_approved_after_merging example_config ascii_lower
    (set_comments
       (set_comments approved_by_comment_after_merge
          [comment_before_merge; comment_by_author])
       ([] ++ [comment_by_author]))
  = pull_request_approved_after_merging example_config ascii_lower
      (set_comments approved_by_comment_after_merge
         [comment_before_merge; comment_by_author]).
Proof.
  apply (proj1 (approved_after_merging_ignores_premerge example_config ascii_lower
                  (set_comments approved_by_comment_after_merge
                     [comment_before_merge; comment_by_author])
                  100 eq_refl) [] comment_before_merge [comment_by_author]);
    reflexivity.
Defined.

Lemma rerun_scan_returns_whether_answered_witness :
  true = answered rerequest_accepted []
           (calls_issued (_maybe_rerun_stale_checks example_config example_now
                            rerequest_accepted ready_with_stale_checks) [])
  /\ (calls_issued (_maybe_rerun_stale_checks example_config example_now
                      rerequest_accepted ready_with_stale_checks) [] = [] ->
      true = false).
Proof.
  apply (rerun_scan_returns_whether_answered example_config example_now
           rerequest_accepted ready_with_stale_checks [] true).
  by vm_compute.
Defined.

Lemma rerun_scan_first_commit_only_witness :
  run (_maybe_rerun_stale_checks example_config example_now rerequest_accepted
         (set_commits ready_with_fresh_checks [fresh_commit; {| check_suites := [] |}]))
      []
  = run (_maybe_rerun_stale_checks example_config example_now rerequest_accepted
           ready_with_fresh_checks) [].
Proof.
  apply (rerun_scan_first_commit_only example_config example_now rerequest_accepted
           ready_with_fresh_checks fresh_commit [] [ {| check_suites := [] |} ] []).
  reflexivity.
Defined.

Lemma rerun_on_approval_gate_witness :
  run (maybe_rerun_stale_checks_on_approved_pull_request example_config example_now
         rerequest_accepted ready_with_stale_checks) []
  = (Return false, []).
Proof.
  apply (proj1 (rerun_on_approval_gate example_config example_now rerequest_accepted
                  ready_with_stale_checks [])).
  right. right. right. reflexivity.
Defined.

Lemma automerge_leaves_alone_witness :
  run (maybe_automerge_pull_request_and_rerun_stale_checks example_config example_now
         rerequest_accepted open_pull_request false) []
  = (Return false, []).
Proof.
  apply (automerge_leaves_alone example_config example_now rerequest_accepted
           open_pull_request false []).
  right. left. intros [l Hl]. inversion Hl.
Defined.

Lemma automerge_immediately_witness :
  run (maybe_automerge_pull_request_and_rerun_stale_checks example_config example_now
         rerequest_accepted labelled_immediately_and_after_approval false) []
  = (Return true, [merge_call labelled_immediately_and_after_approval]).
Proof.
  apply (automerge_immediately example_config example_now rerequest_accepted
           labelled_immediately_and_after_approval false []); try reflexivity.
  by apply (bool_decide_unpack _).
Defined.

Lemma rerun_scan_fails_before_any_call_witness :
  run (_maybe_rerun_stale_checks config_with_huge_threshold example_now
         rerequest_accepted ready_with_stale_checks) []
  = (Raise OverflowError, []).
Proof.
  apply (rerun_scan_fails_before_any_call config_with_huge_threshold example_now
           rerequest_accepted ready_with_stale_checks []).
  - by apply (bool_decide_unpack _).
  - reflexivity.
  - apply (bool_decide_eq_false _). by vm_compute.
Defined.

Lemma automerge_merges_when_fresh_witness :
  run (maybe_automerge_pull_request_and_rerun_stale_checks example_config example_now
         rerequest_accepted ready_with_fresh_checks false) []
  = (Return true, [merge_call ready_with_fresh_checks]).
Proof.
  apply (automerge_merges_when_fresh example_config example_now rerequest_accepted
           ready_with_fresh_checks false []).
  - by vm_compute.
  - discriminate.
  - by apply (bool_decide_unpack _).
  - by apply (bool_decide_unpack _).
Defined.

Lemma automerge_propagates_scan_failure_witness :
  run (maybe_automerge_pull_request_and_rerun_stale_checks config_with_huge_threshold
         example_now rerequest_accepted ready_with_stale_checks false) []
  = (Raise OverflowError, []).
Proof.
  apply (automerge_propagates_scan_failure config_with_huge_threshold example_now
           rerequest_accepted ready_with_stale_checks false []).
  - reflexivity.
  - reflexivity.
  - reflexivity.
  - by apply (bool_decide_unpack _).
  - left. by apply (bool_decide_unpack _).
  - reflexivity.
  - reflexivity.
  - by apply (bool_decide_unpack _).
  - reflexivity.
  - apply (bool_decide_eq_false _). by vm_compute.
Defined.

Lemma inject_asana_task_appends_witness :
  "Fixes the retry." = "Fixes the retry."
  <-> "https://app.asana.com/0/1/2" = "https://app.asana.com/0/1/2".
Proof.
  apply (proj2 (proj2 (inject_asana_task_appends "Fixes the retry."
                         "https://app.asana.com/0/1/2" "Fixes the retry."
                         "https://app.asana.com/0/1/2"))).
  reflexivity.
Defined.

Lemma mentions_are_handles_witness :
  "alice-b" <> ""
  /\ all_chars is_handle_char "alice-b" = true
  /\ exists before after,
       "cc @alice-b, mail bob@example.com" = before +:+ "@" +:+ "alice-b" +:+ after.
Proof.
  apply (mentions_are_handles no_unicode_word "cc @alice-b, mail bob@example.com").
  by apply (bool_decide_unpack _).
Defined.

Lemma mentions_bounded_by_ats_witness :
  _extract_mentions no_unicode_word "no one is mentioned here" = [].
Proof.
  apply (proj2 (mentions_bounded_by_ats no_unicode_word "no one is mentioned here")).
  reflexivity.
Defined.

Lemma mentions_skip_addresses_witness :
  _extract_mentions no_unicode_word "mail bob@example.com or carol_@example.org" = [].
Proof.
  apply (mentions_skip_addresses no_unicode_word). reflexivity.
Defined.

Lemma mentions_finds_first_witness :
  exists more,
    _extract_mentions no_unicode_word ("cc " +:+ "@" +:+ "alice-b" +:+ ", @bob")
    = "alice-b" :: more.
Proof.
  apply (mentions_finds_first no_unicode_word "cc " "alice-b" ", @bob");
    try reflexivity.
  discriminate.
Defined.
